(** * krane-storage-mongo: the basic CRUD controller and the connection wrapper

    A shallow embedding of [BasicController] (with its two helpers
    [normalizeQuery] and [prepareFilter]) and of the [connect] wrapper of
    [mongoose.js], followed by the properties the specification states
    about them.

    JavaScript values are a small tree type; a plain object is an
    association list in insertion order, as [Object.keys] shows it.  Code
    that talks to the response sink, the router or the storage engine runs
    in a state-and-rejection monad whose state holds the request and the
    log of the calls made to those collaborators. *)

From Stdlib Require Import ZArith Ascii String List.
From stdpp Require Import base option list strings gmap.

Local Open Scope string_scope.
Local Open Scope list_scope.
Local Set Warnings "-register-all".

(** ** JavaScript values *)

Inductive value : Type :=
| VUndefined
| VNull
| VBool (b : bool)
| VNum (n : Z)
| VStr (s : string)
| VId (repr : string)                   (* a native ObjectId *)
| VRegExp (source flags : string)       (* new RegExp(source, flags) *)
| VArr (items : list value)
| VObj (props : list (string * value))
| VFunction (name : string) (arity : Z). (* a built-in function *)

Abbreviation obj := (list (string * value)).

Module Js.

(** [o[k]] on the own properties of a plain object: [None] when the key
    is not there. *)
Fixpoint own (o : obj) (k : string) : option value :=
  match o with
  | [] => None
  | (k', v) :: rest => if String.eqb k' k then Some v else own rest k
  end.

(** What a plain object inherits: the properties of [Object.prototype],
    all of them built-in functions, and the accessor [__proto__], which
    reads as [Object.prototype] itself. *)
Definition Object_prototype : obj :=
  [("constructor", VFunction "Object" 1);
   ("__defineGetter__", VFunction "__defineGetter__" 2);
   ("__defineSetter__", VFunction "__defineSetter__" 2);
   ("hasOwnProperty", VFunction "hasOwnProperty" 1);
   ("__lookupGetter__", VFunction "__lookupGetter__" 1);
   ("__lookupSetter__", VFunction "__lookupSetter__" 1);
   ("isPrototypeOf", VFunction "isPrototypeOf" 1);
   ("propertyIsEnumerable", VFunction "propertyIsEnumerable" 1);
   ("toString", VFunction "toString" 0);
   ("valueOf", VFunction "valueOf" 0);
   ("toLocaleString", VFunction "toLocaleString" 0)].

Definition inherited (k : string) : option value :=
  if String.eqb k "__proto__" then Some (VObj Object_prototype)
  else own Object_prototype k.

(** [o[k]] as an expression: an own property first, then the prototype
    chain; a key found in neither reads as [undefined]. *)
Definition get (o : obj) (k : string) : value :=
  match own o k with
  | Some v => v
  | None => default VUndefined (inherited k)
  end.

(** [o[k] = v]: an existing key keeps its place, a new key is appended
    (keys are taken not to be array indices, which an engine lists
    first, nor [__proto__], whose assignment an engine hands to the
    accessor). *)
Fixpoint set (o : obj) (k : string) (v : value) : obj :=
  match o with
  | [] => [(k, v)]
  | (k', v') :: rest =>
      if String.eqb k' k then (k', v) :: rest else (k', v') :: set rest k v
  end.

Definition keys (o : obj) : list string := o.*1.

(** [Object.assign(target, source)]: every own property of [source], in
    its order, is written to [target]. *)
Definition assign (target source : obj) : obj :=
  fold_left (fun t kv => set t kv.1 kv.2) source target.

(** Property read on an arbitrary value, for the properties the
    controller reads: the properties of objects, [length] of arrays and
    strings, [length] and [name] of functions. *)
Definition prop (v : value) (k : string) : value :=
  match v with
  | VObj o => get o k
  | VArr l => if String.eqb k "length" then VNum (Z.of_nat (length l)) else VUndefined
  | VStr s => if String.eqb k "length" then VNum (Z.of_nat (String.length s)) else VUndefined
  | VFunction name arity =>
      if String.eqb k "length" then VNum arity
      else if String.eqb k "name" then VStr name
      else VUndefined
  | _ => VUndefined
  end.

(** ToBoolean. *)
Definition truthy (v : value) : bool :=
  match v with
  | VUndefined | VNull => false
  | VBool b => b
  | VNum n => negb (n =? 0)%Z
  | VStr s => negb (String.eqb s "")
  | VId _ | VRegExp _ _ | VArr _ | VObj _ | VFunction _ _ => true
  end.

(** [a && b] *)
Definition and_ (a b : value) : value := if truthy a then b else a.

(** [v !== undefined] *)
Definition defined (v : value) : bool :=
  match v with VUndefined => false | _ => true end.

End Js.

(** ** The two query helpers *)

(** The storage engine's id type: [mongoose.Types.ObjectId.isValid] and
    [mongoose.Types.ObjectId] are the driver's, so the controller is
    modelled over any pair of them. *)
Class IdEngine : Type := {
  isValid : value -> bool;
  ObjectId : value -> value
}.

(** [const { $or, $and, ...rest } = query] keeps, in order, every own
    property but the two named ones. *)
Definition rest_of (query : obj) : obj :=
  filter (fun kv => negb (String.eqb kv.1 "$or" || String.eqb kv.1 "$and")) query.

(** One round of the [forEach] of [normalizeQuery]. *)
Definition normalize_step (query : obj) (rest : obj) (key : string) : obj :=
  if Js.truthy (Js.and_ (Js.get query key) (Js.prop (Js.get query key) "length"))
  then Js.assign rest [(key, Js.get query key)]
  else rest.

Definition normalizeQuery (query : obj) : obj :=
  fold_left (normalize_step query) ["$or"; "$and"] (rest_of query).

(** [prepareFilter]: [andFilter] grows by [push] while [filterNames] is
    walked. *)
Definition prepareFilter `{IdEngine} (query : obj) (filterNames : list string) : list value :=
  fold_left
    (fun andFilter name =>
       if Js.defined (Js.get query name) then
         let value :=
           if isValid (Js.get query name)
           then ObjectId (Js.get query name)
           else Js.get query name in
         andFilter ++ [VObj [(name, value)]]
       else andFilter)
    filterNames [].

(** ** Promises and collaborators *)

(** How an awaited promise settles. *)
Inductive outcome (A : Type) : Type :=
| Fulfilled (a : A)
| Rejected (e : value).
Arguments Fulfilled {A} a.
Arguments Rejected {A} e.

(** A computation over a state [S] that either settles with a result or
    rejects; the state reached so far survives a rejection. *)
Definition M (S A : Type) : Type := S -> outcome A * S.

Module Async.
Section Ops.
Context {S : Type}.

Definition ret {A} (a : A) : M S A := fun s => (Fulfilled a, s).

Definition throw {A} (e : value) : M S A := fun s => (Rejected e, s).

(** [await m] followed by [k], and also [m.then(k)]. *)
Definition bind {A B} (m : M S A) (k : A -> M S B) : M S B :=
  fun s =>
    match m s with
    | (Fulfilled a, s') => k a s'
    | (Rejected e, s') => (Rejected e, s')
    end.

(** [try { m } catch (e) { h e }], and also [m.catch(h)]. *)
Definition catch {A} (m : M S A) (h : value -> M S A) : M S A :=
  fun s =>
    match m s with
    | (Fulfilled a, s') => (Fulfilled a, s')
    | (Rejected e, s') => h e s'
    end.

Definition read : M S S := fun s => (Fulfilled s, s).
Definition modify (f : S -> S) : M S unit := fun s => (Fulfilled tt, f s).

(** A promise that has already settled. *)
Definition settle {A} (o : outcome A) : M S A := fun s => (o, s).
End Ops.
End Async.

Declare Scope async_scope.
Delimit Scope async_scope with async.
Notation "x <- m ;; k" := (Async.bind m (fun x => k))
  (at level 100, m at next level, right associativity) : async_scope.
Notation "m ;;; k" := (Async.bind m (fun _ => k))
  (at level 100, right associativity) : async_scope.

(** A thrown [TypeError]. *)
Definition TypeError (message : string) : value :=
  VObj [("name", VStr "TypeError"); ("message", VStr message)].

(** [new Error(message)]. *)
Definition Error (message : string) : value :=
  VObj [("message", VStr message)].

(** The request: [body], [query] and [user] come from the transport and
    the authentication layer; [attrs] holds what the router attaches
    under other names, the resolved document under [modelNameAttr] among
    them.  The four are kept apart: the model is taken not to be named
    [Body], [Query] or [User], for which [req[modelNameAttr]] would be
    one of the first three. *)
Record request : Type := {
  body : obj;
  query : obj;
  user : value;
  attrs : obj
}.

(** Calls that leave the controller. *)
Inductive event : Type :=
| EvFindById (id : value)
| EvPopulate (path : string) (select : option string)
| EvSave (item : obj)
| EvDelete (item : obj)
| EvStatus (code : Z)
| EvSend (payload : value)
| EvJson (payload : value)
| EvNext (err : option value).

Definition is_storage_event (e : event) : bool :=
  match e with
  | EvFindById _ | EvPopulate _ _ | EvSave _ | EvDelete _ => true
  | EvStatus _ | EvSend _ | EvJson _ | EvNext _ => false
  end.

Record world : Type := {
  w_req : request;
  w_log : list event
}.

Definition emit (e : event) : M world unit :=
  Async.modify (fun w => {| w_req := w_req w; w_log := w_log w ++ [e] |}).

Definition set_attr (k : string) (v : value) : M world unit :=
  Async.modify (fun w =>
    {| w_req := {| body := body (w_req w); query := query (w_req w);
                   user := user (w_req w);
                   attrs := Js.set (attrs (w_req w)) k v |};
       w_log := w_log w |}).

(** What [mongoose.model(modelName)] resolves to.  The answers of the
    storage engine are the handle's; the controller only logs that it
    asked. *)
Record model_handle : Type := {
  construct : obj -> obj;                          (* new this.model(data) *)
  findById_result : value -> outcome (option obj); (* null when nothing is found *)
  save_result : obj -> outcome value;
  delete_result : obj -> outcome value
}.

Record controller_options : Type := {
  fieldNames : list string;
  populateFields : option (list string);
  fieldNamesSearch : option (list string);
  fieldNamesSearchFilter : option (list string);
  listExtraQueryFields : option (list string)
}.

(** ** Text helpers *)

(** The characters of the class [[.*+?^${}()|[\]\\]] of [list]. *)
Definition special_chars : list ascii :=
  ["."; "*"; "+"; "?"; "^"; "$"; "{"; "}"; "("; ")"; "|"; "["; "]"; "\"]%char.

Definition is_special (c : ascii) : bool :=
  existsb (Ascii.eqb c) special_chars.

(** [q.replace(/[.*+?^${}()|[\]\\]/g, '\\$&')]: every match of the class
    is replaced by a backslash followed by the match. *)
Fixpoint escape_regexp (q : string) : string :=
  match q with
  | EmptyString => EmptyString
  | String ch rest =>
      if is_special ch
      then String "\"%char (String ch (escape_regexp rest))
      else String ch (escape_regexp rest)
  end.

(** [String.prototype.toLowerCase] on the ASCII letters. *)
Definition lower_char (ch : ascii) : ascii :=
  let n := nat_of_ascii ch in
  if (65 <=? n)%nat && (n <=? 90)%nat then ascii_of_nat (n + 32) else ch.

Fixpoint toLowerCase (s : string) : string :=
  match s with
  | EmptyString => EmptyString
  | String ch rest => String (lower_char ch) (toLowerCase rest)
  end.

(** [Array.prototype.join]. *)
Definition join (sep : string) (l : list string) : string := String.concat sep l.

(** ** Deep merge *)

(** Modelled from the spec: [mergeDeep] of [./util], which is not among the
    sources.  The specification says of it: array-valued keys concatenate;
    object-valued keys merge recursively; scalar keys from the extra
    fragment are layered alongside. *)
Fixpoint merge_value (source target : value) {struct source} : value :=
  match source with
  | VArr b =>
      match target with
      | VArr a => VArr (a ++ b)
      | _ => source
      end
  | VObj b =>
      match target with
      | VObj a =>
          VObj ((fix go (b : obj) (a : obj) {struct b} : obj :=
                   match b with
                   | [] => a
                   | (k, v) :: b' =>
                       go b' (Js.set a k
                                (match Js.own a k with
                                 | Some tv => merge_value v tv
                                 | None => v
                                 end))
                   end) b a)
      | _ => source
      end
  | _ => source
  end.

Definition mergeDeep (target source : obj) : obj :=
  match merge_value (VObj source) (VObj target) with
  | VObj merged => merged
  | _ => target
  end.

(** ** The controller *)

Definition read_req : M world request :=
  Async.bind Async.read (fun w => Async.ret (w_req w)).

(** [v[k]] where [v] may be anything: reading a property of [undefined] or
    [null] throws. *)
Definition member (v : value) (k : string) : outcome value :=
  match v with
  | VUndefined | VNull => Rejected (TypeError "Cannot read properties of undefined")
  | _ => Fulfilled (Js.prop v k)
  end.

(** The instance: its fields and the four hooks a subclass may override. *)
Record controller : Type := {
  model : model_handle;
  modelNameAttr : string;
  options : controller_options;
  preCreateHandler : request -> obj -> M world obj;
  preUpdateHandler : request -> obj -> M world obj;
  preDeleteHandler : request -> value -> M world value;
  preListHandler : request -> M world obj
}.

(** [OPERATION_TYPE] *)
Definition SAVE : string := "save".
Definition DELETE : string := "delete".

(** The hooks of [BasicController] itself. *)
Definition basic_preCreateHandler (req : request) (item : obj) : M world obj :=
  Async.ret item.
Definition basic_preUpdateHandler (req : request) (item : obj) : M world obj :=
  Async.ret item.
Definition basic_preDeleteHandler (req : request) (item : value) : M world value :=
  Async.ret item.
Definition basic_preListHandler (req : request) : M world obj :=
  Async.ret [].

(** The constructor; [mongoose_model] is [mongoose.model]. *)
Definition BasicController (mongoose_model : string -> model_handle)
    (modelName : string) (opts : controller_options) : controller :=
  {| model := mongoose_model modelName;
     modelNameAttr := toLowerCase modelName;
     options := opts;
     preCreateHandler := basic_preCreateHandler;
     preUpdateHandler := basic_preUpdateHandler;
     preDeleteHandler := basic_preDeleteHandler;
     preListHandler := basic_preListHandler |}.

Section Controller.
Context `{IdEngine}.
Local Open Scope async_scope.

(** [res.status(code).send({ message })] *)
Definition send_message (code : Z) (message : value) : M world unit :=
  emit (EvStatus code) ;;; emit (EvSend (VObj [("message", message)])).

(** [item[operationType]()]: an object is taken to be a document of the
    model, which has [save] and [delete] and no other method the
    dispatcher could be asked for; on anything else the call throws. *)
Definition call_method (mh : model_handle) (item : value) (operationType : string)
  : M world value :=
  match item with
  | VObj doc =>
      if String.eqb operationType "save"
      then emit (EvSave doc) ;;; Async.settle (save_result mh doc)
      else if String.eqb operationType "delete"
      then emit (EvDelete doc) ;;; Async.settle (delete_result mh doc)
      else Async.throw (TypeError "item[operationType] is not a function")
  | VUndefined | VNull => Async.throw (TypeError "Cannot read properties of undefined")
  | _ => Async.throw (TypeError "item[operationType] is not a function")
  end.

(** [async [operation](operationType, item, res)].  In the handler
    [res.status(400)] is called before the argument of [send] is
    evaluated, and so before [e.message] is read. *)
Definition operation (c : controller) (operationType : string) (item : value)
  : M world unit :=
  Async.catch
    (saveResponse <- call_method (model c) item operationType ;;
     emit (EvJson saveResponse))
    (fun e =>
       emit (EvStatus 400) ;;;
       message <- Async.settle (member e "message") ;;
       emit (EvSend (VObj [("message", message)]))).

(** The loop [fieldNames.forEach(field => itemData[field] = req.body[field])]. *)
Definition itemData_of (names : list string) (body : obj) : obj :=
  fold_left (fun itemData field => Js.set itemData field (Js.get body field)) names [].

Definition read (c : controller) : M world unit :=
  req <- read_req ;;
  emit (EvJson (Js.get (attrs req) (modelNameAttr c))).

Definition create (c : controller) : M world unit :=
  req <- read_req ;;
  let itemData := itemData_of (fieldNames (options c)) (body req) in
  updatedItemData <- preCreateHandler c req itemData ;;
  let item := construct (model c) updatedItemData in
  req <- read_req ;;
  let item := Js.set item "user" (user req) in
  operation c SAVE (VObj item).

(** [Object.assign] writes into the resolved document itself, so the
    request sees the change too.  With [undefined] or [null] in the
    router's slot [Object.assign] throws.  Any other value that is not a
    document comes back from [Object.assign] as an object without a
    [save] of its own (the payload's properties written on it play no
    part in what follows), and goes to the dispatcher as it is. *)
Definition update (c : controller) : M world unit :=
  req <- read_req ;;
  let itemData := itemData_of (fieldNames (options c)) (body req) in
  updatedItemData <- preUpdateHandler c req itemData ;;
  req <- read_req ;;
  match Js.get (attrs req) (modelNameAttr c) with
  | VObj doc =>
      let item := Js.assign doc updatedItemData in
      set_attr (modelNameAttr c) (VObj item) ;;;
      operation c SAVE (VObj item)
  | VUndefined | VNull =>
      Async.throw (TypeError "Cannot convert undefined or null to object")
  | target => operation c SAVE target
  end.

Definition delete (c : controller) : M world unit :=
  req <- read_req ;;
  let item := Js.get (attrs req) (modelNameAttr c) in
  updatedItem <- preDeleteHandler c req item ;;
  operation c DELETE updatedItem.

(** Lines 130 and 131 of [list]: the search term is escaped, then one
    condition per search field is built around the same pattern. *)
Definition search_conditions (q : string) (names_search : list string) : list value :=
  let escaped := escape_regexp q in
  map (fun field => VObj [(field, VObj [("$regex", VRegExp escaped "i")])]) names_search.

(** Lines 128 to 135 of [list]: the filter handed to [model.find].  The
    lines that follow (paging, sorting, population, the count and the
    response) take this filter as it is. *)
Definition list_query (c : controller) : M world obj :=
  req <- read_req ;;
  let q := match Js.get (query req) "q" with VUndefined => VStr "" | v => v end in
  let names_search := default [] (fieldNamesSearch (options c)) in
  let names_filter := default [] (fieldNamesSearchFilter (options c)) in
  match q with
  | VStr q =>
      let or := search_conditions q names_search in
      let and := prepareFilter (query req) names_filter in
      extraQuery <- preListHandler c req ;;
      let query := mergeDeep [("$or", VArr or); ("$and", VArr and)] extraQuery in
      Async.ret (normalizeQuery query)
  | _ => Async.throw (TypeError "q.replace is not a function")
  end.

Definition get (c : controller) (id : value) : M world unit :=
  if negb (isValid id) then send_message 400 (VStr "ID is invalid")
  else
    emit (EvFindById id) ;;;
    emit (EvPopulate "user" (Some "displayName")) ;;;
    match populateFields (options c) with
    | Some fields => emit (EvPopulate (join " " fields) None)
    | None => Async.ret tt
    end ;;;
    Async.catch
      (data <- Async.settle (findById_result (model c) id) ;;
       match data with
       | None => send_message 404 (VStr "No item with that identifier has been found")
       | Some doc => set_attr (modelNameAttr c) (VObj doc) ;;; emit (EvNext None)
       end)
      (fun err => emit (EvNext (Some err))).

End Controller.

(** ** Reading a pattern back *)

(** The pattern grammar of the language (ECMAScript, [SyntaxCharacter]):
    these characters are operators unless a backslash precedes them; a
    backslash before one of them gives the character itself, before any
    other character it starts an escape with a meaning of its own, and at
    the very end it is a syntax error. *)
Definition syntax_characters : list ascii :=
  ["^"; "$"; "\"; "."; "*"; "+"; "?"; "("; ")"; "["; "]"; "{"; "}"; "|"]%char.

Definition is_syntax_character (ch : ascii) : bool :=
  existsb (Ascii.eqb ch) syntax_characters.

Inductive atom : Type :=
| Literal (ch : ascii)     (* matches this character *)
| Operator (ch : ascii)    (* pattern syntax *)
| Escape (ch : ascii).     (* a class or control escape *)

Fixpoint lex (pattern : string) : option (list atom) :=
  match pattern with
  | EmptyString => Some []
  | String ch rest =>
      if Ascii.eqb ch "\"%char then
        match rest with
        | EmptyString => None
        | String e rest' =>
            cons (if is_syntax_character e then Literal e else Escape e) <$> lex rest'
        end
      else
        cons (if is_syntax_character ch then Operator ch else Literal ch) <$> lex rest
  end.

(** The text a pattern spells when it holds nothing but literals. *)
Fixpoint literal_text (atoms : list atom) : option string :=
  match atoms with
  | [] => Some EmptyString
  | Literal ch :: rest => String ch <$> literal_text rest
  | _ :: _ => None
  end.

Fixpoint starts_with (needle hay : string) : bool :=
  match needle, hay with
  | EmptyString, _ => true
  | String a needle', String b hay' => Ascii.eqb a b && starts_with needle' hay'
  | String _ _, EmptyString => false
  end.

(** [needle] occurs somewhere in [hay]. *)
Fixpoint occurs (needle hay : string) : bool :=
  starts_with needle hay
  || match hay with
     | EmptyString => false
     | String _ hay' => occurs needle hay'
     end.

(** [re.test(s)] for the patterns made of literals only, with the flag
    [i] or with none; other patterns are outside this model. *)
Definition regexp_test (re : value) (s : string) : option bool :=
  match re with
  | VRegExp source flags =>
      atoms ← lex source;
      text ← literal_text atoms;
      if String.eqb flags "i" then Some (occurs (toLowerCase text) (toLowerCase s))
      else if String.eqb flags "" then Some (occurs text s)
      else None
  | _ => None
  end.

(** ** [normalizeQuery] on references *)

(** The same function with the objects in a store, so that what it writes
    is visible: [rest] is a new object, and [Object.assign] writes to it. *)
Module Heap.

Abbreviation heap := (gmap positive obj).

Definition alloc (h : heap) (o : obj) : heap * positive :=
  let l := fresh (dom h) in (<[l := o]> h, l).

Definition normalize_step (query rest : positive) (h : heap) (key : string) : heap :=
  match h !! query with
  | Some q =>
      if Js.truthy (Js.and_ (Js.get q key) (Js.prop (Js.get q key) "length"))
      then alter (fun target => Js.assign target [(key, Js.get q key)]) rest h
      else h
  | None => h
  end.

Definition normalizeQuery (h : heap) (query : positive) : option (heap * positive) :=
  q ← h !! query;
  let '(h1, rest) := alloc h (rest_of q) in
  Some (fold_left (normalize_step query rest) ["$or"; "$and"] h1, rest).

End Heap.

(** ** The connection wrapper ([mongoose.js]) *)

Module Connection.

Inductive styled : Type :=
| Red (text : string)
| Yellow (text : string).

Inductive console_event : Type :=
| ConsoleError (text : styled)
| ConsoleInfo (text : styled)
| ConsoleLog (v : value).

(** The driver: how its [connect] and [disconnect] settle, and its
    [connection] object. *)
Record driver : Type := {
  connect_result : value -> value -> outcome value;
  disconnect_result : outcome value;
  connection : value
}.

(** What the wrapper can change: the driver's settings and the console. *)
Record process : Type := {
  settings : obj;
  console : list console_event
}.

Record db : Type := {
  uri : value;
  db_options : value;
  debug : value
}.

Definition mongoose_set (k : string) (v : value) : M process unit :=
  Async.modify (fun p => {| settings := Js.set (settings p) k v; console := console p |}).

Definition console_write (e : console_event) : M process unit :=
  Async.modify (fun p => {| settings := settings p; console := console p ++ [e] |}).

Local Open Scope async_scope.

Definition connect (mongoose : driver) (config : db) : M process value :=
  let '{| uri := uri; db_options := options; debug := debug |} := config in
  Async.catch
    (Async.bind (Async.settle (connect_result mongoose uri options))
       (fun _ =>
          mongoose_set "debug" debug ;;;
          Async.ret (connection mongoose)))
    (fun err =>
       console_write (ConsoleError (Red "Could not connect to MongoDB!")) ;;;
       console_write (ConsoleLog err) ;;;
       Async.ret VUndefined).

Definition disconnect (mongoose : driver) : M process value :=
  Async.catch
    (Async.bind (Async.settle (disconnect_result mongoose))
       (fun _ =>
          console_write (ConsoleInfo (Yellow "Disconnected from MongoDB.")) ;;;
          Async.ret VUndefined))
    (fun err =>
       console_write (ConsoleError (Red "Error when disconnected from MongoDB")) ;;;
       console_write (ConsoleLog err) ;;;
       Async.ret VUndefined).

End Connection.

(** ** Vocabulary of the statements *)

(** The test of line 18 of [normalizeQuery]. *)
Definition kept (query : obj) (key : string) : bool :=
  Js.truthy (Js.and_ (Js.get query key) (Js.prop (Js.get query key) "length")).

Definition is_group_key (k : string) : bool :=
  String.eqb k "$or" || String.eqb k "$and".

(** [prepareFilter] in the specification's words: the value of a field
    goes to the engine's native id when it is a valid id and is used raw
    otherwise; a field counts when the mapping has it with a value other
    than [undefined]; there is one equality condition per such field of
    the eligible list, in the list's order. *)
Definition to_native `{IdEngine} (v : value) : value :=
  if isValid v then ObjectId v else v.

Definition present (query : obj) (name : string) : bool :=
  match Js.own query name with
  | None | Some VUndefined => false
  | Some _ => true
  end.

Definition equality_condition (field : string) (v : value) : value :=
  VObj [(field, v)].

Definition prepareFilter_by_spec `{IdEngine} (query : obj) (eligible : list string)
  : list value :=
  map (fun field => equality_condition field (to_native (Js.get query field)))
      (filter (fun field => present query field) eligible).

(** The same with the test the code makes: a field counts when reading it
    on the mapping, own or inherited, gives something other than
    [undefined]. *)
Definition reads_defined (query : obj) (field : string) : bool :=
  Js.defined (Js.get query field).

Definition prepareFilter_as_read `{IdEngine} (query : obj) (eligible : list string)
  : list value :=
  map (fun field => equality_condition field (to_native (Js.get query field)))
      (filter (fun field => reads_defined query field) eligible).

(** The world after more calls were logged, after the router's slot [k] of
    the request was written, and with another request body. *)
Definition logged (w : world) (events : list event) : world :=
  {| w_req := w_req w; w_log := w_log w ++ events |}.

Definition attach (w : world) (k : string) (v : value) : world :=
  {| w_req := {| body := body (w_req w); query := query (w_req w);
                 user := user (w_req w);
                 attrs := Js.set (attrs (w_req w)) k v |};
     w_log := w_log w |}.

Definition with_body (w : world) (b : obj) : world :=
  {| w_req := {| body := b; query := query (w_req w);
                 user := user (w_req w); attrs := attrs (w_req w) |};
     w_log := w_log w |}.

Definition with_query (w : world) (q : obj) : world :=
  {| w_req := {| body := body (w_req w); query := q;
                 user := user (w_req w); attrs := attrs (w_req w) |};
     w_log := w_log w |}.

(** What the collaborators see of a run: how it settled, the calls made,
    and the router's slots of the request. *)
Definition observable {A} (run : outcome A * world) : outcome A * list event * obj :=
  (run.1, w_log run.2, attrs (w_req run.2)).

(** [{ message }] *)
Definition message_payload (message : value) : value :=
  VObj [("message", message)].

(** How a mutating operation must end once the storage call on [item] has
    settled as [result]: a failure with message [m] gives status 400 and
    [{message: m}], a success gives the result as JSON. *)
Definition reports (result : outcome value) (call : event)
    (run : outcome unit * world) (before : world) : Prop :=
  (∀ e m, result = Rejected e → member e "message" = Fulfilled m →
     run = (Fulfilled tt, logged before [call; EvStatus 400; EvSend (message_payload m)]))
  ∧ (∀ r, result = Fulfilled r →
     run = (Fulfilled tt, logged before [call; EvJson r])).

(** An engine for the examples: ids are the strings of 24 hexadecimal
    digits and the native ids themselves. *)
Definition is_hex_digit (ch : ascii) : bool :=
  let n := nat_of_ascii ch in
  ((48 <=? n)%nat && (n <=? 57)%nat)
  || ((65 <=? n)%nat && (n <=? 70)%nat)
  || ((97 <=? n)%nat && (n <=? 102)%nat).

Definition hex_engine : IdEngine :=
  {| isValid v :=
       match v with
       | VStr s => (String.length s =? 24)%nat && forallb is_hex_digit (list_ascii_of_string s)
       | VId _ => true
       | _ => false
       end;
     ObjectId v :=
       match v with
       | VStr s => VId (toLowerCase s)
       | _ => v
       end |}.

(** A model, a controller and requests for the examples: documents are
    built from the data as given, saving a document titled "bad" fails
    with the message "boom", and so does every delete. *)
Definition sample_model : model_handle :=
  {| construct data := data;
     findById_result id := Fulfilled None;
     save_result doc :=
       match Js.get doc "title" with
       | VStr t => if String.eqb t "bad" then Rejected (Error "boom") else Fulfilled (VObj doc)
       | _ => Fulfilled (VObj doc)
       end;
     delete_result doc := Rejected (Error "boom") |}.

Definition sample_options : controller_options :=
  {| fieldNames := ["title"];
     populateFields := None;
     fieldNamesSearch := Some ["title"; "text"];
     fieldNamesSearchFilter := Some ["status"];
     listExtraQueryFields := None |}.

Definition sample_controller : controller :=
  BasicController (fun _ => sample_model) "Article" sample_options.

Definition sample_world (b q : obj) (resolved : obj) : world :=
  {| w_req := {| body := b; query := q; user := VStr "ann"; attrs := resolved |};
     w_log := [] |}.

(** A subclass whose pre-create hook writes a [user] of its own into the
    candidate data. *)
Definition forging_controller : controller :=
  {| model := sample_model;
     modelNameAttr := toLowerCase "Article";
     options := sample_options;
     preCreateHandler := fun req item => Async.ret (Js.set item "user" (VStr "mallory"));
     preUpdateHandler := basic_preUpdateHandler;
     preDeleteHandler := basic_preDeleteHandler;
     preListHandler := basic_preListHandler |}.

(** The search term of a list request: [q] of the query string, the empty
    string when there is none; [None] when [q] is not a string. *)
Definition search_term (req : request) : option string :=
  match Js.get (query req) "q" with
  | VUndefined => Some ""
  | VStr q => Some q
  | _ => None
  end.

(** The [{ $or, $and }] object of line 134, before the merge. *)
Definition composed_query `{IdEngine} (c : controller) (req : request) (q : string) : obj :=
  [("$or", VArr (search_conditions q (default [] (fieldNamesSearch (options c)))));
   ("$and", VArr (prepareFilter (query req)
                    (default [] (fieldNamesSearchFilter (options c)))))].

(** A search condition in the specification's words: the field is matched
    against a case-insensitive regular expression. *)
Definition search_condition (field pattern : string) : value :=
  VObj [(field, VObj [("$regex", VRegExp pattern "i")])].

(** Options of a model with exact-match filters and no search fields. *)
Definition unsearchable_options : controller_options :=
  {| fieldNames := ["title"];
     populateFields := None;
     fieldNamesSearch := None;
     fieldNamesSearchFilter := Some ["q"; "status"];
     listExtraQueryFields := None |}.

(** A subclass for a model with no search fields, whose pre-list hook
    matches the term against the title itself: it returns
    [{ title: req.query.q }]. *)
Definition term_matching_controller : controller :=
  {| model := sample_model;
     modelNameAttr := toLowerCase "Article";
     options := {| fieldNames := ["title"];
                   populateFields := None;
                   fieldNamesSearch := None;
                   fieldNamesSearchFilter := Some ["status"];
                   listExtraQueryFields := None |};
     preCreateHandler := basic_preCreateHandler;
     preUpdateHandler := basic_preUpdateHandler;
     preDeleteHandler := basic_preDeleteHandler;
     preListHandler := fun req => Async.ret [("title", Js.get (query req) "q")] |}.

(** A driver that cannot reach its server, one that can, and a
    configuration. *)
Definition unreachable_driver : Connection.driver :=
  {| Connection.connect_result := fun _ _ => Rejected (Error "ECONNREFUSED");
     Connection.disconnect_result := Fulfilled VUndefined;
     Connection.connection := VObj [("readyState", VNum 0)] |}.

Definition reachable_driver : Connection.driver :=
  {| Connection.connect_result := fun _ _ => Fulfilled VUndefined;
     Connection.disconnect_result := Fulfilled VUndefined;
     Connection.connection := VObj [("readyState", VNum 1)] |}.

Definition sample_db : Connection.db :=
  {| Connection.uri := VStr "mongodb://localhost/krane";
     Connection.db_options := VObj [];
     Connection.debug := VBool false |}.

Definition fresh_process : Connection.process :=
  {| Connection.settings := []; Connection.console := [] |}.

(** ** The rest of [list] *)

(** Numbers.  The integers are the ones a double holds exactly, those of
    magnitude up to 2^53; [None] stands for a number this model does not
    give: [NaN], a fraction, a larger magnitude.  What the language makes
    of a string is left to [number_of_string]. *)
Definition exact (n : Z) : option Z :=
  if (Z.abs n <=? 2 ^ 53)%Z then Some n else None.

Class JsNumber : Type := {
  number_of_string : string -> option Z
}.

(** [+v] *)
Definition to_number `{JsNumber} (v : value) : option Z :=
  match v with
  | VNum n => exact n
  | VStr s => number_of_string s ≫= exact
  | VBool b => Some (if b then 1 else 0)%Z
  | VNull => Some 0%Z
  | _ => None
  end.

(** [a - b] and [a * b] on numbers. *)
Definition js_sub (a b : option Z) : option Z :=
  x ← a; y ← b; exact (x - y).

Definition js_mul (a b : option Z) : option Z :=
  x ← a; y ← b; exact (x * y).

(** The query the chain [find(..).limit(..).skip(..).sort(..).populate(..)]
    builds; nothing is asked of the storage engine until it is awaited. *)
Record find_request : Type := {
  fq_filter : obj;
  fq_limit : option Z;
  fq_skip : option Z;
  fq_sort : string;
  fq_populate : list (string * option string)
}.

(** The find and count side of [this.model]: how a query and
    [countDocuments()] settle, and which of the two settles first when
    both are rejected. *)
Record query_handle : Type := {
  find_result : find_request -> outcome value;
  count_result : outcome value;
  count_settles_first : bool
}.

Inductive query_call : Type :=
| FindCall (items : find_request)
| CountCall.

(** [list] runs over the world and the queries put to the storage engine. *)
Definition lift {A} (m : M world A) : M (world * list query_call) A :=
  fun s => let '(o, w) := m s.1 in (o, (w, s.2)).

Definition issue (call : query_call) : M (world * list query_call) unit :=
  Async.modify (fun s => (s.1, s.2 ++ [call])).

(** [Promise.all([items, count])]: both queries run; the result is the
    pair of their results, or the rejection that came first. *)
Definition promise_all (qh : query_handle) (items : find_request)
  : M (world * list query_call) (value * value) :=
  Async.bind (issue (FindCall items)) (fun _ =>
  Async.bind (issue CountCall) (fun _ =>
  Async.settle
    match find_result qh items, count_result qh with
    | Fulfilled found, Fulfilled count => Fulfilled (found, count)
    | Rejected e, Fulfilled _ => Rejected e
    | Fulfilled _, Rejected e => Rejected e
    | Rejected e1, Rejected e2 => Rejected (if count_settles_first qh then e2 else e1)
    end)).

(** [const { limit = 20, page = 1 } = req.query] *)
Definition limit_of (req : request) : value :=
  match Js.get (query req) "limit" with
  | VUndefined => VNum 20
  | v => v
  end.

Definition page_of (req : request) : value :=
  match Js.get (query req) "page" with
  | VUndefined => VNum 1
  | v => v
  end.

Section ListOperation.
Context `{IdEngine} `{JsNumber}.
Local Open Scope async_scope.

(** The query of lines 135 to 142. *)
Definition items_query (c : controller) (filter : obj) (limit page : value) : find_request :=
  {| fq_filter := filter;
     fq_limit := to_number limit;
     fq_skip := js_mul (js_sub (to_number page) (to_number (VNum 1))) (to_number limit);
     fq_sort := "-created";
     fq_populate :=
       ("user", Some "displayName")
       :: match populateFields (options c) with
          | Some fields => [(join " " fields, None)]
          | None => []
          end |}.

(** [list], whole: line 128, then lines 129 to 135 as [list_query], then
    the query, the count and the response. *)
Definition list_ (c : controller) (qh : query_handle) : M (world * list query_call) unit :=
  req <- lift read_req ;;
  let limit := limit_of req in
  let page := page_of req in
  filter <- lift (list_query c) ;;
  let items := items_query c filter limit page in
  Async.catch
    (Async.bind (promise_all qh items)
       (fun '(items, count) =>
          lift (emit (EvJson (VObj [("items", items); ("count", count)])))))
    (fun err =>
       lift (emit (EvStatus 400)) ;;;
       message <- Async.settle (member err "message") ;;
       lift (emit (EvSend (VObj [("message", message)])))).

End ListOperation.

(** ** Loading the models ([mongoose.js]) *)

Module Loader.

(** [path.resolve] and what [require] does with a resolved path are the
    platform's. *)
Record platform : Type := {
  resolve : string -> string;
  require_result : string -> outcome value
}.

(** [require(p)]; the state lists the paths asked for. *)
Definition require (env : platform) (p : string) : M (list string) value :=
  Async.bind (Async.modify (fun asked => asked ++ [p]))
    (fun _ => Async.settle (require_result env p)).

(** [array.forEach(f)]: a call that throws ends the walk. *)
Fixpoint for_each {S A : Type} (f : A -> M S unit) (l : list A) : M S unit :=
  match l with
  | [] => Async.ret tt
  | x :: rest => Async.bind (f x) (fun _ => for_each f rest)
  end.

Definition loadModels (env : platform) (models : list string) : M (list string) unit :=
  for_each
    (fun modelPath =>
       Async.bind (require env (resolve env modelPath)) (fun _ => Async.ret tt))
    models.

End Loader.

(** ** More vocabulary *)

(** The events that answer the request, the ones that tell the router to
    go on, and the storage calls of a log. *)
Definition is_response_event (e : event) : bool :=
  match e with
  | EvStatus _ | EvSend _ | EvJson _ => true
  | _ => false
  end.

Definition is_next_event (e : event) : bool :=
  match e with
  | EvNext _ => true
  | _ => false
  end.

(** The calls [findById(id).populate('user', 'displayName')] and the
    optional second [populate] put to the storage engine. *)
Definition lookup_calls (c : controller) (id : value) : list event :=
  EvFindById id
  :: EvPopulate "user" (Some "displayName")
  :: match populateFields (options c) with
     | Some fields => [EvPopulate (join " " fields) None]
     | None => []
     end.

(** A thrown value that has properties to read. *)
Definition readable (e : value) : bool :=
  match e with
  | VUndefined | VNull => false
  | _ => true
  end.

(** The groups [normalizeQuery] puts back, in the order it puts them. *)
Definition kept_group (query : obj) (key : string) : obj :=
  if kept query key then [(key, Js.get query key)] else [].

(** No character of the term is in the class of line 130. *)
Definition plain (q : string) : bool :=
  forallb (fun ch => negb (is_special ch)) (list_ascii_of_string q).

(** Numerals for the examples: a string of decimal digits is its value. *)
Definition digit_of (ch : ascii) : option Z :=
  let n := nat_of_ascii ch in
  if (48 <=? n)%nat && (n <=? 57)%nat then Some (Z.of_nat (n - 48)) else None.

Fixpoint digits_value (s : string) (acc : Z) : option Z :=
  match s with
  | EmptyString => Some acc
  | String ch rest => d ← digit_of ch; digits_value rest (10 * acc + d)%Z
  end.

Definition numerals : JsNumber :=
  {| number_of_string s := digits_value s 0%Z |}.

(** A collection for the examples: a filter with exact-match conditions
    cannot be run, any other query finds one document; there are 41
    documents. *)
Definition sample_queries : query_handle :=
  {| find_result r :=
       match Js.own (fq_filter r) "$and" with
       | Some _ => Rejected (Error "bad filter")
       | None => Fulfilled (VArr [VObj [("title", VStr "t")]])
       end;
     count_result := Fulfilled (VNum 41);
     count_settles_first := false |}.

(** A platform for the examples: paths resolve under [/app], and the
    model [broken.js] throws while loading. *)
Definition sample_platform : Loader.platform :=
  {| Loader.resolve p := String.append "/app/" p;
     Loader.require_result p :=
       if String.eqb p "/app/broken.js" then Rejected (Error "SyntaxError")
       else Fulfilled (VObj []) |}.

(** A model that finds one article under any id. *)
Definition finding_model : model_handle :=
  {| construct data := data;
     findById_result id := Fulfilled (Some [("title", VStr "found")]);
     save_result doc := Fulfilled (VObj doc);
     delete_result doc := Fulfilled (VObj doc) |}.

(** A model whose storage cannot be reached. *)
Definition failing_model : model_handle :=
  {| construct data := data;
     findById_result id := Rejected (Error "down");
     save_result doc := Rejected VUndefined;
     delete_result doc := Rejected (Error "down") |}.

(** A subclass whose hooks all refuse. *)
Definition refusing_controller : controller :=
  {| model := sample_model;
     modelNameAttr := toLowerCase "Article";
     options := sample_options;
     preCreateHandler := fun req item => Async.throw (Error "forbidden");
     preUpdateHandler := fun req item => Async.throw (Error "forbidden");
     preDeleteHandler := fun req item => Async.throw (Error "forbidden");
     preListHandler := fun req => Async.throw (Error "forbidden") |}.

(** A value with no [length] to speak of: not an array, not a string, not
    a function, and if an object then one without a [length] property. *)
Definition lengthless (v : value) : bool :=
  match v with
  | VArr _ | VStr _ | VFunction _ _ => false
  | VObj o => match Js.own o "length" with Some _ => false | None => true end
  | _ => true
  end.

(** * Properties *)

(** ** Laws of plain objects *)

Module JsFacts.

Lemma eqb_eq_true (a b : string) : String.eqb a b = true ↔ a = b.
Proof. apply String.eqb_eq. Qed.

Lemma eqb_ne (a b : string) : a ≠ b → String.eqb a b = false.
Proof. intros Hne. by apply String.eqb_neq. Qed.

Lemma own_set_eq (o : obj) k v : Js.own (Js.set o k v) k = Some v.
Proof.
  induction o as [|[k' v'] o IH]; simpl.
  - by rewrite String.eqb_refl.
  - destruct (String.eqb k' k) eqn:E; simpl; rewrite E; [done | apply IH].
Qed.

Lemma own_set_ne (o : obj) k k' v : k ≠ k' → Js.own (Js.set o k v) k' = Js.own o k'.
Proof.
  intros Hne. induction o as [|[k0 v0] o IH]; simpl.
  - by rewrite eqb_ne.
  - destruct (String.eqb k0 k) eqn:E; simpl.
    + apply String.eqb_eq in E as ->. by rewrite !eqb_ne.
    + by rewrite IH.
Qed.

Lemma own_set (o : obj) k k' v :
  Js.own (Js.set o k v) k' = if String.eqb k k' then Some v else Js.own o k'.
Proof.
  destruct (String.eqb k k') eqn:E.
  - apply String.eqb_eq in E as <-. apply own_set_eq.
  - apply String.eqb_neq in E. by apply own_set_ne.
Qed.

Lemma own_None_keys (o : obj) k : Js.own o k = None ↔ k ∉ Js.keys o.
Proof.
  unfold Js.keys. induction o as [|[k' v'] o IH]; simpl.
  - split; [intros _; apply not_elem_of_nil | done].
  - rewrite not_elem_of_cons. destruct (String.eqb k' k) eqn:E.
    + apply String.eqb_eq in E as ->. split; [done | intros [? _]; done].
    + apply String.eqb_neq in E. rewrite IH. split; [by intros ? | by intros [_ ?]].
Qed.

Lemma own_Some_elem (o : obj) k v : Js.own o k = Some v → (k, v) ∈ o.
Proof.
  induction o as [|[k' v'] o IH]; simpl; [done|].
  destruct (String.eqb k' k) eqn:E.
  - apply String.eqb_eq in E as ->. intros [= ->]. apply list_elem_of_here.
  - intros Hown. apply list_elem_of_further, IH, Hown.
Qed.

Lemma elem_own_NoDup (o : obj) k v :
  NoDup (Js.keys o) → (k, v) ∈ o → Js.own o k = Some v.
Proof.
  unfold Js.keys. induction o as [|[k' v'] o IH]; simpl.
  - intros _ Hin. by apply elem_of_nil in Hin.
  - rewrite NoDup_cons. intros [Hk Hnd] Hin.
    apply elem_of_cons in Hin as [[= -> ->] | Hin].
    + by rewrite String.eqb_refl.
    + destruct (String.eqb k' k) eqn:E; [|by apply IH].
      apply String.eqb_eq in E as ->. exfalso. apply Hk.
      apply list_elem_of_fmap. by exists (k, v).
Qed.

(** Reading does not depend on the order the keys were written in. *)
Lemma own_Permutation (o o' : obj) k :
  NoDup (Js.keys o) → o ≡ₚ o' → Js.own o k = Js.own o' k.
Proof.
  intros Hnd Hperm.
  assert (Hnd' : NoDup (Js.keys o')).
  { unfold Js.keys in *. by rewrite <- Hperm. }
  destruct (Js.own o k) as [v|] eqn:E.
  - symmetry. apply elem_own_NoDup; [done|]. rewrite <- Hperm. by apply own_Some_elem.
  - symmetry. apply own_None_keys. apply own_None_keys in E.
    unfold Js.keys in *. by rewrite <- Hperm.
Qed.

Lemma keys_set (o : obj) k v :
  Js.keys (Js.set o k v) = if decide (k ∈ Js.keys o) then Js.keys o else Js.keys o ++ [k].
Proof.
  unfold Js.keys. induction o as [|[k' v'] o IH].
  - by destruct (decide (k ∈ ([] : obj).*1)) as [Hin%elem_of_nil|].
  - cbn [Js.set]. destruct (String.eqb k' k) eqn:E.
    + apply String.eqb_eq in E as ->.
      destruct (decide (k ∈ ((k, v') :: o).*1)) as [|Hin]; [done|].
      exfalso. apply Hin. rewrite fmap_cons. apply list_elem_of_here.
    + apply String.eqb_neq in E. rewrite !fmap_cons, IH. cbn [fst].
      destruct (decide (k ∈ o.*1)) as [Hin|Hin];
        destruct (decide (k ∈ k' :: o.*1)) as [Hin'|Hin']; try done.
      * exfalso. apply Hin'. by apply list_elem_of_further.
      * apply elem_of_cons in Hin' as [->|?]; done.
Qed.

Lemma NoDup_keys_set (o : obj) k v : NoDup (Js.keys o) → NoDup (Js.keys (Js.set o k v)).
Proof.
  intros Hnd. rewrite keys_set. case_decide; [done|].
  apply NoDup_app. split_and!; [done | | apply NoDup_singleton].
  intros x Hx Hx'. apply list_elem_of_singleton in Hx' as ->. done.
Qed.

(** What [Object.assign] leaves: the source's value where the source
    has the key, the target's elsewhere. *)
Lemma own_assign (target source : obj) k :
  NoDup (Js.keys source) →
  Js.own (Js.assign target source) k =
    match Js.own source k with
    | Some v => Some v
    | None => Js.own target k
    end.
Proof.
  unfold Js.assign, Js.keys. revert target.
  induction source as [|[k' v'] source IH]; intros target; simpl; [done|].
  rewrite NoDup_cons. intros [Hk Hnd]. rewrite IH by done.
  destruct (String.eqb k' k) eqn:E.
  - apply String.eqb_eq in E as ->.
    assert (Js.own source k = None) as -> by by apply own_None_keys.
    apply own_set_eq.
  - apply String.eqb_neq in E. destruct (Js.own source k); [done|].
    by apply own_set_ne.
Qed.

Lemma get_own (o : obj) k v : Js.own o k = Some v → Js.get o k = v.
Proof. unfold Js.get. by intros ->. Qed.

(** A key that is neither the object's own nor inherited reads as
    [undefined]; a key that is not inherited reads as the own property. *)
Lemma get_absent (o : obj) k :
  Js.own o k = None → Js.inherited k = None → Js.get o k = VUndefined.
Proof. unfold Js.get. by intros -> ->. Qed.

Lemma get_not_inherited (o : obj) k :
  Js.inherited k = None → Js.get o k = default VUndefined (Js.own o k).
Proof. unfold Js.get. intros ->. by destruct (Js.own o k). Qed.

Lemma group_key_cases (key : string) :
  is_group_key key = true → key = "$or" ∨ key = "$and".
Proof.
  unfold is_group_key. intros Hkey. apply orb_prop in Hkey as [Hk | Hk];
    apply String.eqb_eq in Hk; auto.
Qed.

End JsFacts.

(** ** [normalizeQuery] *)

Section NormalizeQuery.
Import JsFacts.

Lemma kept_array query key items :
  Js.own query key = Some (VArr items) →
  kept query key = match items with [] => false | _ :: _ => true end.
Proof.
  intros Hown. unfold kept. rewrite (get_own _ _ _ Hown). by destruct items.
Qed.

Lemma kept_absent query key :
  is_group_key key = true → Js.own query key = None → kept query key = false.
Proof.
  intros Hkey Hown. unfold kept.
  destruct (group_key_cases key Hkey) as [-> | ->]; by rewrite get_absent.
Qed.

Lemma own_rest_of query k :
  Js.own (rest_of query) k = if is_group_key k then None else Js.own query k.
Proof.
  unfold rest_of, is_group_key. induction query as [|[k' v'] query IH]; simpl.
  - by destruct (_ || _).
  - destruct (String.eqb k' "$or" || String.eqb k' "$and") eqn:G.
    + rewrite filter_cons_False by (simpl; rewrite G; exact id).
      rewrite IH. destruct (String.eqb k' k) eqn:E; [|done].
      apply String.eqb_eq in E as ->. by rewrite G.
    + rewrite filter_cons_True by (simpl; by rewrite G).
      simpl. destruct (String.eqb k' k) eqn:E; [|done].
      apply String.eqb_eq in E as ->. by rewrite G.
Qed.

Lemma rest_of_idemp query : rest_of (rest_of query) = rest_of query.
Proof. unfold rest_of. apply list_filter_filter_l. done. Qed.

Lemma rest_of_set query k v :
  is_group_key k = true → rest_of (Js.set query k v) = rest_of query.
Proof.
  unfold rest_of, is_group_key. intros Hk.
  induction query as [|[k' v'] query IH]; simpl.
  - rewrite filter_cons_False by (simpl; rewrite Hk; exact id). done.
  - destruct (String.eqb k' k) eqn:E.
    + apply String.eqb_eq in E as ->.
      by rewrite !filter_cons_False by (simpl; rewrite Hk; exact id).
    + destruct (String.eqb k' "$or" || String.eqb k' "$and") eqn:G.
      * by rewrite !filter_cons_False by (simpl; rewrite G; exact id).
      * rewrite !filter_cons_True by (simpl; by rewrite G). by rewrite IH.
Qed.

Lemma rest_of_normalize_step query rest key :
  is_group_key key = true → rest_of (normalize_step query rest key) = rest_of rest.
Proof.
  intros Hk. unfold normalize_step. fold (kept query key).
  destruct (kept query key); [|done]. by apply rest_of_set.
Qed.

Lemma own_normalize_step query rest key k :
  Js.own (normalize_step query rest key) k =
    if String.eqb key k
    then (if kept query key then Some (Js.get query key) else Js.own rest k)
    else Js.own rest k.
Proof.
  unfold normalize_step. fold (kept query key).
  destruct (kept query key).
  - unfold Js.assign. simpl. apply own_set.
  - by destruct (String.eqb key k).
Qed.

(** Every key of the result, read back. *)
Lemma own_normalizeQuery query k :
  Js.own (normalizeQuery query) k =
    if is_group_key k
    then (if kept query k then Some (Js.get query k) else None)
    else Js.own query k.
Proof.
  unfold normalizeQuery. simpl.
  rewrite !own_normalize_step, own_rest_of. unfold is_group_key.
  rewrite (String.eqb_sym "$and" k), (String.eqb_sym "$or" k).
  destruct (String.eqb k "$and") eqn:E2.
  - apply String.eqb_eq in E2 as ->. simpl. by destruct (kept query "$and").
  - destruct (String.eqb k "$or") eqn:E1; [|done].
    apply String.eqb_eq in E1 as ->. simpl. by destruct (kept query "$or").
Qed.

Lemma heap_normalize_step (h : gmap positive obj) query rest q r key :
  query ≠ rest → h !! query = Some q → h !! rest = Some r →
  Heap.normalize_step query rest h key !! rest = Some (normalize_step q r key)
  ∧ ∀ l, l ≠ rest → Heap.normalize_step query rest h key !! l = h !! l.
Proof.
  intros Hne Hq Hr. unfold Heap.normalize_step, normalize_step. rewrite Hq.
  destruct (Js.truthy _).
  - split.
    + by rewrite lookup_alter_eq, Hr.
    + intros l Hl. by rewrite lookup_alter_ne.
  - done.
Qed.


(** C4. [normalizeQuery] keeps [$or] and [$and] exactly when the input
    group is a non-empty sequence: an absent or empty group is not in
    the result, a non-empty one is there with its value.  Every other
    top-level key reads as in the input, and these keys keep their
    order.  The input object is not written to: run on a store, the
    function allocates the result and leaves every object that was
    there, the input among them, as it was. *)
Theorem normalizeQuery_groups (query : obj) :
  (∀ key, is_group_key key = true →
     (Js.own query key = None → Js.own (normalizeQuery query) key = None)
     ∧ (Js.own query key = Some (VArr []) → Js.own (normalizeQuery query) key = None)
     ∧ (∀ c cs, Js.own query key = Some (VArr (c :: cs)) →
          Js.own (normalizeQuery query) key = Some (VArr (c :: cs))))
  ∧ (∀ k, is_group_key k = false → Js.own (normalizeQuery query) k = Js.own query k)
  ∧ rest_of (normalizeQuery query) = rest_of query
  ∧ (∀ (h : gmap positive obj) (l : positive), h !! l = Some query →
       ∃ h' r, Heap.normalizeQuery h l = Some (h', r)
               ∧ h' !! r = Some (normalizeQuery query)
               ∧ h !! r = None
               ∧ ∀ l', l' ≠ r → h' !! l' = h !! l').
Proof.
  split_and!.
  - intros key Hkey. split_and!.
    + intros Hown. by rewrite own_normalizeQuery, Hkey, kept_absent.
    + intros Hown. by rewrite own_normalizeQuery, Hkey, (kept_array _ _ _ Hown).
    + intros c cs Hown.
      by rewrite own_normalizeQuery, Hkey, (kept_array _ _ _ Hown), (get_own _ _ _ Hown).
  - intros k Hk. by rewrite own_normalizeQuery, Hk.
  - unfold normalizeQuery. simpl.
    rewrite !rest_of_normalize_step by done. apply rest_of_idemp.
  - intros h l Hl. unfold Heap.normalizeQuery, Heap.alloc. rewrite Hl. simpl.
    set (r := fresh (dom h)).
    assert (Hfresh : h !! r = None).
    { apply not_elem_of_dom. apply is_fresh. }
    assert (Hne : l ≠ r) by (intros ->; congruence).
    set (h1 := <[r := rest_of query]> h).
    assert (Hq1 : h1 !! l = Some query) by (unfold h1; by rewrite lookup_insert_ne).
    assert (Hr1 : h1 !! r = Some (rest_of query)) by (unfold h1; by rewrite lookup_insert_eq).
    destruct (heap_normalize_step h1 l r query _ "$or" Hne Hq1 Hr1) as [Hr2 Hf2].
    set (h2 := Heap.normalize_step l r h1 "$or") in *.
    assert (Hq2 : h2 !! l = Some query) by (by rewrite Hf2).
    destruct (heap_normalize_step h2 l r query _ "$and" Hne Hq2 Hr2) as [Hr3 Hf3].
    eexists _, r. split_and!; [done | exact Hr3 | done |].
    intros l' Hl'. rewrite Hf3, Hf2 by done. unfold h1. by rewrite lookup_insert_ne.
Qed.

Lemma normalizeQuery_groups_witness :
  let query := [("owner", VStr "ann"); ("$or", VArr []);
                ("$and", VArr [VObj [("status", VStr "active")]])] in
  Js.own (normalizeQuery query) "$or" = None
  ∧ Js.own (normalizeQuery query) "$and" = Some (VArr [VObj [("status", VStr "active")]])
  ∧ Js.own (normalizeQuery query) "owner" = Some (VStr "ann")
  ∧ Js.own (normalizeQuery [("owner", VStr "ann")]) "$and" = None
  ∧ ∃ h' r, Heap.normalizeQuery {[ 1%positive := query ]} 1%positive = Some (h', r)
            ∧ h' !! 1%positive = Some query.
Proof.
  intros query.
  destruct (normalizeQuery_groups query) as (Hgroup & Hother & _ & Hheap).
  destruct (normalizeQuery_groups [("owner", VStr "ann")]) as (Hgroup' & _).
  destruct (Hgroup "$or" eq_refl) as (_ & Hempty & _).
  destruct (Hgroup "$and" eq_refl) as (_ & _ & Hfull).
  destruct (Hgroup' "$and" eq_refl) as (Habsent & _).
  split_and!.
  - apply Hempty. reflexivity.
  - apply Hfull. reflexivity.
  - rewrite (Hother "owner"); reflexivity.
  - apply Habsent. reflexivity.
  - destruct (Hheap {[ 1%positive := query ]} 1%positive (lookup_singleton_eq _ _))
      as (h' & r & Hrun & _ & Hfresh & Hframe).
    exists h', r. split; [exact Hrun|].
    rewrite Hframe; [apply lookup_singleton_eq|].
    intros Heq. subst r. rewrite lookup_singleton_eq in Hfresh. discriminate Hfresh.
Defined.

End NormalizeQuery.

(** ** [prepareFilter] *)

Section PrepareFilter.
Context `{IdEngine}.
Import JsFacts.

Lemma reads_defined_present query name :
  Js.inherited name = None → reads_defined query name = present query name.
Proof.
  intros Hown. unfold reads_defined, present. rewrite (get_not_inherited _ _ Hown).
  by destruct (Js.own query name) as [[]|].
Qed.

Lemma prepareFilter_from (query : obj) (names : list string) (acc : list value) :
  fold_left
    (fun andFilter name =>
       if Js.defined (Js.get query name) then
         let value :=
           if isValid (Js.get query name)
           then ObjectId (Js.get query name)
           else Js.get query name in
         andFilter ++ [VObj [(name, value)]]
       else andFilter)
    names acc
  = acc ++ prepareFilter_as_read query names.
Proof.
  unfold prepareFilter_as_read. revert acc.
  induction names as [|name names IH]; intros acc; simpl.
  - by rewrite app_nil_r.
  - rewrite IH. fold (reads_defined query name).
    destruct (reads_defined query name) eqn:P.
    + rewrite filter_cons_True by (by rewrite P). simpl.
      by rewrite <- app_assoc.
    + rewrite filter_cons_False by (rewrite P; exact id). done.
Qed.

Lemma get_Permutation (query query' : obj) name :
  NoDup (Js.keys query) → query ≡ₚ query' → Js.get query name = Js.get query' name.
Proof. intros Hnd Hp. unfold Js.get. by rewrite (own_Permutation _ _ _ Hnd Hp). Qed.

Lemma filter_reads_present (query : obj) (eligible : list string) :
  (∀ name, name ∈ eligible → Js.inherited name = None) →
  filter (fun field => reads_defined query field) eligible
  = filter (fun field => present query field) eligible.
Proof.
  induction eligible as [|name names IH]; intros Hplain; [done|].
  assert (Hname : reads_defined query name = present query name)
    by apply reads_defined_present, Hplain, list_elem_of_here.
  assert (Htail : ∀ n, n ∈ names → Js.inherited n = None)
    by (intros n Hn; by apply Hplain, list_elem_of_further).
  destruct (present query name) eqn:P.
  - rewrite !filter_cons_True by (by rewrite ?Hname, ?P). by rewrite IH.
  - rewrite !filter_cons_False by (rewrite ?Hname, ?P; exact id). by apply IH.
Qed.

(** C3, as the code has it.  [prepareFilter] returns one equality
    condition [{field: value}] per field of the eligible list whose read
    on the mapping, [query[field]], gives a value other than [undefined],
    in the order of the eligible list; a value that is a valid id is
    replaced by its native id, any other value is used as it is.  Listing
    the same mapping with its keys in another order gives the same
    result.  The read follows the prototype chain: for an eligible list
    that names no property of [Object.prototype], the fields that count
    are the ones the mapping itself has with a value other than
    [undefined]. *)
Theorem prepareFilter_conditions (query : obj) (eligible : list string) :
  prepareFilter query eligible = prepareFilter_as_read query eligible
  ∧ (∀ query' : obj, NoDup (Js.keys query) → query ≡ₚ query' →
       prepareFilter query' eligible = prepareFilter query eligible)
  ∧ ((∀ name, name ∈ eligible → Js.inherited name = None) →
       prepareFilter query eligible = prepareFilter_by_spec query eligible).
Proof.
  assert (Hread : ∀ q, prepareFilter q eligible = prepareFilter_as_read q eligible).
  { intros q. unfold prepareFilter. by rewrite prepareFilter_from. }
  split_and!.
  - apply Hread.
  - intros query' Hnd Hp. rewrite !Hread. unfold prepareFilter_as_read.
    induction eligible as [|name names IH]; [done|].
    assert (Hget : Js.get query' name = Js.get query name)
      by (symmetry; by apply get_Permutation).
    assert (Hpres : reads_defined query' name = reads_defined query name)
      by (unfold reads_defined; by rewrite Hget).
    assert (IH' : map (fun field => equality_condition field (to_native (Js.get query' field)))
                    (filter (fun field => reads_defined query' field) names)
                  = map (fun field => equality_condition field (to_native (Js.get query field)))
                      (filter (fun field => reads_defined query field) names)).
    { apply IH. intros q. unfold prepareFilter. by rewrite prepareFilter_from. }
    destruct (reads_defined query name) eqn:P.
    + rewrite !filter_cons_True by (by rewrite ?Hpres, ?P). simpl.
      by rewrite IH', Hget.
    + rewrite !filter_cons_False by (rewrite ?Hpres, ?P; exact id). done.
  - intros Hplain. rewrite Hread. unfold prepareFilter_as_read, prepareFilter_by_spec.
    by rewrite filter_reads_present.
Qed.

(** A field named twice in the eligible list is asked for twice. *)
Lemma prepareFilter_length (query : obj) (eligible : list string) :
  length (prepareFilter query eligible)
  = length (filter (fun field => reads_defined query field) eligible).
Proof.
  unfold prepareFilter. rewrite prepareFilter_from. unfold prepareFilter_as_read.
  simpl. by rewrite length_map.
Qed.

End PrepareFilter.

Lemma prepareFilter_conditions_witness :
  let query := [("status", VStr "active"); ("owner", VStr "5f1d7f3e9d3e2a0017a3c111");
                ("page", VStr "2")] in
  let query' := [("owner", VStr "5f1d7f3e9d3e2a0017a3c111"); ("page", VStr "2");
                 ("status", VStr "active")] in
  @prepareFilter hex_engine query' ["owner"; "tag"; "status"]
  = [VObj [("owner", VId "5f1d7f3e9d3e2a0017a3c111")]; VObj [("status", VStr "active")]]
  ∧ @prepareFilter hex_engine query ["owner"; "tag"; "status"]
    = @prepareFilter_by_spec hex_engine query ["owner"; "tag"; "status"].
Proof.
  intros query query'.
  destruct (@prepareFilter_conditions hex_engine query ["owner"; "tag"; "status"])
    as (Hread & Horder & Hspec).
  split.
  - rewrite (Horder query').
    + rewrite Hread. reflexivity.
    + apply (bool_decide_unpack _). vm_compute. exact I.
    + unfold query, query'. apply Permutation_cons_app with (l1 := [_; _]) (l2 := []). done.
  - apply Hspec. intros name Hin.
    repeat (apply elem_of_cons in Hin as [-> | Hin]; [reflexivity|]).
    by apply elem_of_nil in Hin.
Defined.

(** C3, as the specification words it, fails: on an empty mapping and the
    eligible field [constructor] the code returns a condition, on the
    function every plain object inherits under that name, though the
    mapping has no such field. *)
Lemma prepareFilter_reads_inherited :
  @prepareFilter hex_engine [] ["constructor"]
  = [VObj [("constructor", VFunction "Object" 1)]]
  ∧ @prepareFilter_by_spec hex_engine [] ["constructor"] = []
  ∧ ¬ (∀ (query : obj) (eligible : list string),
         @prepareFilter hex_engine query eligible
         = @prepareFilter_by_spec hex_engine query eligible).
Proof.
  split_and!; [reflexivity | reflexivity |].
  intros Hall. specialize (Hall [] ["constructor"]). discriminate Hall.
Qed.

(** ** The save/delete dispatcher *)

Ltac run_async :=
  unfold send_message, emit, set_attr, read_req,
    Async.bind, Async.catch, Async.settle, Async.ret, Async.throw,
    Async.read, Async.modify; simpl.

Section Dispatcher.
Import JsFacts.

Lemma logged_logged w evs evs' : logged (logged w evs) evs' = logged w (evs ++ evs').
Proof. unfold logged. simpl. by rewrite app_assoc. Qed.

Lemma emit_run e w : emit e w = (Fulfilled tt, logged w [e]).
Proof. done. Qed.

Lemma send_message_run code m w :
  send_message code m w = (Fulfilled tt, logged w [EvStatus code; EvSend (message_payload m)]).
Proof.
  unfold send_message. run_async. unfold logged. simpl. by rewrite <- app_assoc.
Qed.

(** The method the intent names, as the call it makes and the way the
    handle lets it settle. *)
Lemma call_method_save mh doc w :
  call_method mh (VObj doc) SAVE w = (save_result mh doc, logged w [EvSave doc]).
Proof. unfold call_method. simpl. run_async. by destruct (save_result mh doc). Qed.

Lemma call_method_delete mh doc w :
  call_method mh (VObj doc) DELETE w = (delete_result mh doc, logged w [EvDelete doc]).
Proof. unfold call_method. simpl. run_async. by destruct (delete_result mh doc). Qed.

Lemma operation_settled c operationType item result call w :
  (∀ w, call_method (model c) item operationType w = (result, logged w [call])) →
  reports result call (operation c operationType item w) w.
Proof.
  intros Hcall. split.
  - intros e m -> Hm. unfold operation, Async.catch, Async.bind at 1.
    rewrite Hcall. run_async. rewrite Hm. unfold logged, message_payload. simpl.
    by rewrite <- !app_assoc.
  - intros r ->. unfold operation, Async.catch, Async.bind.
    rewrite Hcall, emit_run, logged_logged. done.
Qed.

Lemma operation_save c doc w :
  reports (save_result (model c) doc) (EvSave doc) (operation c SAVE (VObj doc) w) w.
Proof. apply operation_settled. intros w'. apply call_method_save. Qed.

Lemma operation_delete c doc w :
  reports (delete_result (model c) doc) (EvDelete doc) (operation c DELETE (VObj doc) w) w.
Proof. apply operation_settled. intros w'. apply call_method_delete. Qed.

(** The dispatcher adds to the log and touches nothing else; what it
    adds does not depend on the world it starts from. *)
Lemma operation_uniform c operationType item :
  ∃ o evs, ∀ w, operation c operationType item w = (o, logged w evs).
Proof.
  unfold operation, call_method.
  destruct item as [| | | | | | | |doc|];
    try (eexists _, _; intros w; run_async;
         unfold logged; simpl; rewrite <- ?app_assoc; reflexivity).
  destruct (String.eqb operationType "save") eqn:E1;
    [|destruct (String.eqb operationType "delete") eqn:E2].
  - destruct (save_result (model c) doc) as [r|e] eqn:R;
      [|destruct (member e "message") as [m|e'] eqn:Hm];
      eexists _, _; intros w; run_async; rewrite ?R, ?Hm;
      unfold logged; simpl; rewrite <- ?app_assoc; reflexivity.
  - destruct (delete_result (model c) doc) as [r|e] eqn:R;
      [|destruct (member e "message") as [m|e'] eqn:Hm];
      eexists _, _; intros w; run_async; rewrite ?R, ?Hm;
      unfold logged; simpl; rewrite <- ?app_assoc; reflexivity.
  - eexists _, _; intros w; run_async.
    unfold logged; simpl; rewrite <- ?app_assoc; reflexivity.
Qed.

End Dispatcher.

(** ** Create, update and delete *)

Section Mutations.
Import JsFacts.

Lemma create_dispatch c w data w1 :
  preCreateHandler c (w_req w) (itemData_of (fieldNames (options c)) (body (w_req w))) w
    = (Fulfilled data, w1) →
  create c w
  = operation c SAVE (VObj (Js.set (construct (model c) data) "user" (user (w_req w1)))) w1.
Proof.
  intros Hhook. unfold create, read_req, Async.read, Async.ret.
  unfold Async.bind at 1 2 3. by rewrite Hhook.
Qed.

Lemma update_dispatch c w payload w1 doc :
  preUpdateHandler c (w_req w) (itemData_of (fieldNames (options c)) (body (w_req w))) w
    = (Fulfilled payload, w1) →
  Js.get (attrs (w_req w1)) (modelNameAttr c) = VObj doc →
  update c w
  = operation c SAVE (VObj (Js.assign doc payload))
      (attach w1 (modelNameAttr c) (VObj (Js.assign doc payload))).
Proof.
  intros Hhook Hdoc. unfold update, read_req, Async.read, Async.ret.
  unfold Async.bind at 1 2 3. rewrite Hhook.
  unfold Async.bind at 1 2. rewrite Hdoc. done.
Qed.

Lemma delete_dispatch c w item w1 :
  preDeleteHandler c (w_req w) (Js.get (attrs (w_req w)) (modelNameAttr c)) w
    = (Fulfilled item, w1) →
  delete c w = operation c DELETE item w1.
Proof.
  intros Hhook. unfold delete, read_req, Async.read, Async.ret.
  unfold Async.bind at 1 2 3. by rewrite Hhook.
Qed.

(** C7. Create, update and delete all end in the one dispatcher, once
    their hook has returned.  When the storage call on the item fails
    with an error whose message is [m], the response is status 400 with
    [{message: m}]; when it succeeds with [r], the response is [r] as
    JSON.  Nothing else is sent. *)
Theorem mutations_report_storage_outcome (c : controller) (w w1 : world) :
  (∀ data,
     preCreateHandler c (w_req w) (itemData_of (fieldNames (options c)) (body (w_req w))) w
       = (Fulfilled data, w1) →
     let item := Js.set (construct (model c) data) "user" (user (w_req w1)) in
     create c w = operation c SAVE (VObj item) w1
     ∧ reports (save_result (model c) item) (EvSave item) (create c w) w1)
  ∧ (∀ payload doc,
       preUpdateHandler c (w_req w) (itemData_of (fieldNames (options c)) (body (w_req w))) w
         = (Fulfilled payload, w1) →
       Js.get (attrs (w_req w1)) (modelNameAttr c) = VObj doc →
       let item := Js.assign doc payload in
       let w2 := attach w1 (modelNameAttr c) (VObj item) in
       update c w = operation c SAVE (VObj item) w2
       ∧ reports (save_result (model c) item) (EvSave item) (update c w) w2)
  ∧ (∀ item,
       preDeleteHandler c (w_req w) (Js.get (attrs (w_req w)) (modelNameAttr c)) w
         = (Fulfilled (VObj item), w1) →
       delete c w = operation c DELETE (VObj item) w1
       ∧ reports (delete_result (model c) item) (EvDelete item) (delete c w) w1).
Proof.
  split_and!.
  - intros data Hhook item. rewrite (create_dispatch _ _ _ _ Hhook).
    split; [done | apply operation_save].
  - intros payload doc Hhook Hdoc item w2. rewrite (update_dispatch _ _ _ _ _ Hhook Hdoc).
    split; [done | apply operation_save].
  - intros item Hhook. rewrite (delete_dispatch _ _ _ _ Hhook).
    split; [done | apply operation_delete].
Qed.

End Mutations.

Lemma mutations_report_storage_outcome_witness :
  let bad := sample_world [("title", VStr "bad")] [] [("article", VObj [("title", VStr "t")])] in
  let good := sample_world [("title", VStr "fine")] [] [("article", VObj [("title", VStr "t")])] in
  w_log (create sample_controller bad).2
    = [EvSave [("title", VStr "bad"); ("user", VStr "ann")];
       EvStatus 400; EvSend (VObj [("message", VStr "boom")])]
  ∧ w_log (update sample_controller bad).2
    = [EvSave [("title", VStr "bad")];
       EvStatus 400; EvSend (VObj [("message", VStr "boom")])]
  ∧ w_log (delete sample_controller bad).2
    = [EvDelete [("title", VStr "t")];
       EvStatus 400; EvSend (VObj [("message", VStr "boom")])]
  ∧ w_log (create sample_controller good).2
    = [EvSave [("title", VStr "fine"); ("user", VStr "ann")];
       EvJson (VObj [("title", VStr "fine"); ("user", VStr "ann")])].
Proof.
  intros bad good.
  destruct (mutations_report_storage_outcome sample_controller bad bad)
    as (Hcreate & Hupdate & Hdelete).
  destruct (mutations_report_storage_outcome sample_controller good good)
    as (Hcreate' & _).
  split_and!.
  - destruct (Hcreate [("title", VStr "bad")] eq_refl) as [_ [Hfail _]].
    rewrite (Hfail (Error "boom") (VStr "boom") eq_refl eq_refl). reflexivity.
  - destruct (Hupdate [("title", VStr "bad")] [("title", VStr "t")] eq_refl eq_refl)
      as [_ [Hfail _]].
    rewrite (Hfail (Error "boom") (VStr "boom") eq_refl eq_refl). reflexivity.
  - destruct (Hdelete [("title", VStr "t")] eq_refl) as [_ [Hfail _]].
    rewrite (Hfail (Error "boom") (VStr "boom") eq_refl eq_refl). reflexivity.
  - destruct (Hcreate' [("title", VStr "fine")] eq_refl) as [_ [_ Hok]].
    rewrite (Hok _ eq_refl). reflexivity.
Defined.

(** ** The whitelist *)

Section Whitelist.
Import JsFacts.

Lemma own_itemData_from (names : list string) (b acc : obj) k :
  Js.own (fold_left (fun itemData field => Js.set itemData field (Js.get b field)) names acc) k
  = if decide (k ∈ names) then Some (Js.get b k) else Js.own acc k.
Proof.
  revert acc. induction names as [|n names IH]; intros acc; simpl.
  - by destruct (decide (k ∈ [])) as [Hin%elem_of_nil|].
  - rewrite IH. destruct (decide (k ∈ names)) as [Hin|Hin].
    + rewrite decide_True; [done | by apply list_elem_of_further].
    + destruct (decide (k = n)) as [->|Hne].
      * rewrite decide_True by apply list_elem_of_here. apply own_set_eq.
      * rewrite decide_False by (rewrite not_elem_of_cons; done).
        by apply own_set_ne.
Qed.

(** The built data has the whitelisted names as its keys and nothing
    else; a name the body lacks is there with [undefined]. *)
Lemma own_itemData (names : list string) (b : obj) k :
  Js.own (itemData_of names b) k = if decide (k ∈ names) then Some (Js.get b k) else None.
Proof. unfold itemData_of. by rewrite own_itemData_from. Qed.

Lemma itemData_from_agree (names : list string) (b1 b2 acc : obj) :
  (∀ field, field ∈ names → Js.get b1 field = Js.get b2 field) →
  fold_left (fun itemData field => Js.set itemData field (Js.get b1 field)) names acc
  = fold_left (fun itemData field => Js.set itemData field (Js.get b2 field)) names acc.
Proof.
  revert acc. induction names as [|n names IH]; intros acc Hagree; simpl; [done|].
  rewrite (Hagree n) by apply list_elem_of_here.
  apply IH. intros field Hin. apply Hagree. by apply list_elem_of_further.
Qed.

Lemma NoDup_keys_itemData (names : list string) (b : obj) :
  NoDup (Js.keys (itemData_of names b)).
Proof.
  unfold itemData_of.
  assert (Hgen : ∀ acc, NoDup (Js.keys acc) →
    NoDup (Js.keys (fold_left (fun itemData field => Js.set itemData field (Js.get b field))
                      names acc))).
  { induction names as [|n names IH]; intros acc Hacc; simpl; [done|].
    apply IH. by apply NoDup_keys_set. }
  apply Hgen. apply NoDup_nil_2.
Qed.

Lemma create_basic mm modelName opts w :
  let c := BasicController mm modelName opts in
  create c w
  = operation c SAVE
      (VObj (Js.set (construct (model c) (itemData_of (fieldNames opts) (body (w_req w))))
               "user" (user (w_req w)))) w.
Proof. intros c. by apply create_dispatch. Qed.

Lemma update_basic mm modelName opts w doc :
  let c := BasicController mm modelName opts in
  Js.get (attrs (w_req w)) (modelNameAttr c) = VObj doc →
  let item := Js.assign doc (itemData_of (fieldNames opts) (body (w_req w))) in
  update c w = operation c SAVE (VObj item) (attach w (modelNameAttr c) (VObj item)).
Proof. intros c Hdoc item. by apply update_dispatch. Qed.

(** [update] with the controller's own hook, by what the router's slot
    holds. *)
Lemma update_basic_run mm modelName opts w :
  let c := BasicController mm modelName opts in
  update c w
  = match Js.get (attrs (w_req w)) (modelNameAttr c) with
    | VObj doc =>
        let item := Js.assign doc (itemData_of (fieldNames opts) (body (w_req w))) in
        operation c SAVE (VObj item) (attach w (modelNameAttr c) (VObj item))
    | VUndefined | VNull =>
        (Rejected (TypeError "Cannot convert undefined or null to object"), w)
    | target => operation c SAVE target w
    end.
Proof.
  intros c. unfold update, read_req, Async.read, Async.ret.
  unfold Async.bind at 1 2 3. simpl. unfold basic_preUpdateHandler, Async.ret.
  unfold Async.bind at 1 2. simpl.
  by destruct (Js.get (attrs (w_req w)) (toLowerCase modelName)).
Qed.

(** C1. Only the whitelisted keys of the request body reach the item
    data: two bodies that agree on every name of [fieldNames] give the
    same item data, and a key outside [fieldNames] is not in it.  With
    the controller's own hooks, create and update then make the same
    calls and give the same response for both bodies; create hands the
    model exactly the item data, and update leaves every key outside
    [fieldNames] of the resolved document as it was. *)
Theorem whitelist_only (names : list string) (body1 body2 : obj) :
  (∀ field, field ∈ names → Js.get body1 field = Js.get body2 field) →
  itemData_of names body1 = itemData_of names body2
  ∧ (∀ k, k ∉ names → Js.own (itemData_of names body1) k = None)
  ∧ ∀ mongoose_model modelName opts w,
      fieldNames opts = names →
      let c := BasicController mongoose_model modelName opts in
      observable (create c (with_body w body1)) = observable (create c (with_body w body2))
      ∧ observable (update c (with_body w body1)) = observable (update c (with_body w body2))
      ∧ create c (with_body w body1)
        = operation c SAVE
            (VObj (Js.set (construct (model c) (itemData_of names body1))
                     "user" (user (w_req w))))
            (with_body w body1)
      ∧ ∀ doc, Js.get (attrs (w_req w)) (modelNameAttr c) = VObj doc →
          ∃ item,
            update c (with_body w body1)
            = operation c SAVE (VObj item)
                (attach (with_body w body1) (modelNameAttr c) (VObj item))
            ∧ ∀ k, k ∉ names → Js.own item k = Js.own doc k.
Proof.
  intros Hagree.
  assert (Hdata : itemData_of names body1 = itemData_of names body2)
    by (by apply itemData_from_agree).
  split_and!; [done | |].
  - intros k Hk. rewrite own_itemData. by rewrite decide_False.
  - intros mm modelName opts w Hnames c. split_and!.
    + unfold c. rewrite !create_basic. simpl. rewrite Hnames, Hdata.
      destruct (operation_uniform (BasicController mm modelName opts) SAVE
        (VObj (Js.set (construct (mm modelName) (itemData_of names body2)) "user"
                 (user (w_req w))))) as (o & evs & Hrun).
      by rewrite !Hrun.
    + unfold c. rewrite !update_basic_run. simpl. rewrite Hnames, Hdata.
      destruct (Js.get (attrs (w_req w)) (toLowerCase modelName)) as [| |b|n|t|r|src fl|l|doc|f a];
        try done;
        match goal with
        | |- observable (operation ?c ?t ?item _) = _ =>
            destruct (operation_uniform c t item) as (o & evs & Hrun); by rewrite !Hrun
        end.
    + unfold c. rewrite create_basic. simpl. by rewrite Hnames.
    + intros doc Hdoc. eexists. split.
      * unfold c. rewrite (update_basic _ _ _ _ doc) by exact Hdoc. simpl.
        rewrite Hnames. reflexivity.
      * intros k Hk. rewrite own_assign by apply NoDup_keys_itemData.
        rewrite own_itemData. by rewrite decide_False.
Qed.

End Whitelist.

Lemma whitelist_only_witness :
  let body1 := [("title", VStr "X"); ("secret", VStr "Y")] in
  let body2 := [("title", VStr "X")] in
  itemData_of ["title"] body1 = [("title", VStr "X")]
  ∧ Js.own (itemData_of ["title"] body1) "secret" = None
  ∧ observable (create sample_controller (sample_world body1 [] []))
    = observable (create sample_controller (sample_world body2 [] []))
  ∧ ∃ item,
      update sample_controller
        (sample_world body1 [] [("article", VObj [("secret", VStr "kept")])])
      = operation sample_controller SAVE (VObj item)
          (attach (sample_world body1 [] [("article", VObj [("secret", VStr "kept")])])
             "article" (VObj item))
      ∧ Js.own item "secret" = Some (VStr "kept").
Proof.
  intros body1 body2.
  assert (Hagree : ∀ field, field ∈ ["title"] → Js.get body1 field = Js.get body2 field).
  { intros field Hin. apply list_elem_of_singleton in Hin. subst field. reflexivity. }
  destruct (whitelist_only ["title"] body1 body2 Hagree) as (Hdata & Hkeys & Hrun).
  split_and!.
  - rewrite Hdata. reflexivity.
  - apply Hkeys. intros Hin. apply list_elem_of_singleton in Hin. discriminate Hin.
  - destruct (Hrun (fun _ => sample_model) "Article" sample_options
                (sample_world [] [] []) eq_refl) as (Hcreate & _).
    exact Hcreate.
  - destruct (Hrun (fun _ => sample_model) "Article" sample_options
                (sample_world [] [] [("article", VObj [("secret", VStr "kept")])]) eq_refl)
      as (_ & _ & _ & Hupdate).
    destruct (Hupdate [("secret", VStr "kept")] eq_refl) as (item & Hitem & Hkeep).
    exists item. split; [exact Hitem|].
    rewrite (Hkeep "secret"); [reflexivity|].
    intros Hin. apply list_elem_of_singleton in Hin. discriminate Hin.
Defined.

(** ** Update writes the payload onto the resolved document *)

Section Update.
Import JsFacts.


(** With the controller's own hook the payload is the item data, whose
    keys are the whitelisted names: a whitelisted field the body lacks
    is written as [undefined]. *)
Lemma update_basic_fields mm modelName opts w doc k :
  let c := BasicController mm modelName opts in
  Js.get (attrs (w_req w)) (modelNameAttr c) = VObj doc →
  ∃ item,
    update c w = operation c SAVE (VObj item) (attach w (modelNameAttr c) (VObj item))
    ∧ Js.own item k
      = if decide (k ∈ fieldNames opts) then Some (Js.get (body (w_req w)) k)
        else Js.own doc k.
Proof.
  intros c Hdoc. eexists. split; [by apply update_basic|].
  rewrite own_assign by apply NoDup_keys_itemData. rewrite own_itemData.
  by destruct (decide (k ∈ fieldNames opts)).
Qed.

End Update.


(** ** Create attaches the actor *)

Section CreateUser.
Import JsFacts.

Lemma operation_save_log c doc w :
  ∃ tail, w_log (operation c SAVE (VObj doc) w).2 = w_log w ++ EvSave doc :: tail.
Proof.
  unfold operation, Async.catch, Async.bind at 1. rewrite call_method_save.
  destruct (save_result (model c) doc) as [r|e].
  - eexists. rewrite emit_run, logged_logged. reflexivity.
  - run_async. destruct (member e "message") as [m|e'];
      eexists; simpl; rewrite <- !app_assoc; reflexivity.
Qed.

(** C9. In create the item's [user] is written after the pre-create
    hook has run and after the document was built from what the hook
    returned: the item that is saved has [user] equal to the request's
    [user] at that point, whatever [user] the hook left in the data;
    when the hook has not replaced the request's [user], that is the
    actor the request came with. *)
Theorem create_assigns_user (c : controller) (w w1 : world) (data : obj) :
  preCreateHandler c (w_req w) (itemData_of (fieldNames (options c)) (body (w_req w))) w
    = (Fulfilled data, w1) →
  ∃ item tail,
    create c w = operation c SAVE (VObj item) w1
    ∧ w_log (create c w).2 = w_log w1 ++ EvSave item :: tail
    ∧ Js.own item "user" = Some (user (w_req w1))
    ∧ (user (w_req w1) = user (w_req w) → Js.get item "user" = user (w_req w)).
Proof.
  intros Hhook.
  destruct (operation_save_log c
    (Js.set (construct (model c) data) "user" (user (w_req w1))) w1) as [tail Htail].
  eexists _, tail. rewrite (create_dispatch _ _ _ _ Hhook). split_and!.
  - reflexivity.
  - exact Htail.
  - apply own_set_eq.
  - intros <-. unfold Js.get. by rewrite own_set_eq.
Qed.

End CreateUser.

Lemma create_assigns_user_witness :
  let w := sample_world [("title", VStr "T")] [] [] in
  ∃ item tail,
    w_log (create forging_controller w).2 = EvSave item :: tail
    ∧ Js.own item "user" = Some (VStr "ann")
    ∧ Js.get item "user" = user (w_req w).
Proof.
  intros w.
  destruct (create_assigns_user forging_controller w w
              [("title", VStr "T"); ("user", VStr "mallory")] eq_refl)
    as (item & tail & _ & Hlog & Huser & Hsame).
  exists item, tail. split_and!; [exact Hlog | exact Huser | exact (Hsame eq_refl)].
Defined.

(** ** Read by id *)

Section GetById.
Context `{IdEngine}.

(** A well-formed id is looked up: the storage layer is asked first. *)
Lemma get_valid_id_queries (c : controller) (id : value) (w : world) :
  isValid id = true →
  ∃ tail, w_log (get c id w).2
          = w_log w ++ EvFindById id :: EvPopulate "user" (Some "displayName") :: tail.
Proof.
  intros Hvalid. unfold get. rewrite Hvalid. simpl.
  destruct (populateFields (options c)) as [fields|];
    destruct (findById_result (model c) id) as [[doc|]|e];
    eexists; run_async; rewrite <- ?app_assoc; simpl; reflexivity.
Qed.

(** C6. When the id is not a valid identifier of the storage engine,
    [get] answers with status 400 and the message "ID is invalid" and
    does nothing else: no storage call is made, the router is not told
    to go on, and the request is left as it was. *)
Theorem get_rejects_invalid_id (c : controller) (id : value) (w : world) :
  isValid id = false →
  get c id w
  = (Fulfilled tt,
     logged w [EvStatus 400; EvSend (message_payload (VStr "ID is invalid"))])
  ∧ filter is_storage_event (w_log (get c id w).2) = filter is_storage_event (w_log w)
  ∧ w_req (get c id w).2 = w_req w.
Proof.
  intros Hinvalid.
  assert (Hrun : get c id w
    = (Fulfilled tt,
       logged w [EvStatus 400; EvSend (message_payload (VStr "ID is invalid"))])).
  { unfold get. rewrite Hinvalid. simpl. apply send_message_run. }
  rewrite Hrun. split_and!; [done | | done].
  simpl. rewrite filter_app. simpl.
  rewrite !filter_cons_False by (intros []). by rewrite filter_nil, app_nil_r.
Qed.

End GetById.

Lemma get_rejects_invalid_id_witness :
  @get hex_engine sample_controller (VStr "not-an-id") (sample_world [] [] [])
  = (Fulfilled tt,
     logged (sample_world [] [] [])
       [EvStatus 400; EvSend (VObj [("message", VStr "ID is invalid")])]).
Proof.
  destruct (@get_rejects_invalid_id hex_engine sample_controller (VStr "not-an-id")
              (sample_world [] [] []) eq_refl) as (Hrun & _).
  exact Hrun.
Defined.

(** ** The search term *)

Section SearchTerm.
Context `{IdEngine}.
Import JsFacts.

(** The class of line 130 holds the syntax characters of the pattern
    language, all of them and no other. *)
Lemma special_is_syntax (ch : ascii) : is_special ch = is_syntax_character ch.
Proof. destruct ch as [[] [] [] [] [] [] [] []]; reflexivity. Qed.

Lemma not_special_not_backslash (ch : ascii) :
  is_special ch = false → Ascii.eqb ch "\"%char = false.
Proof.
  intros Hsp. destruct (Ascii.eqb ch "\"%char) eqn:E; [|done].
  apply Ascii.eqb_eq in E. subst ch. discriminate Hsp.
Qed.

Lemma escape_special (ch : ascii) :
  ch ∈ special_chars →
  escape_regexp (String ch EmptyString) = String "\"%char (String ch EmptyString).
Proof.
  intros Hin. simpl. assert (is_special ch = true) as ->; [|done].
  unfold is_special. apply existsb_exists. exists ch. split.
  - by apply list_elem_of_In.
  - apply Ascii.eqb_refl.
Qed.

Lemma escape_app (a b : string) :
  escape_regexp (a ++ b) = (escape_regexp a ++ escape_regexp b)%string.
Proof.
  induction a as [|ch a IH]; simpl; [done|].
  destruct (is_special ch); simpl; by rewrite IH.
Qed.

(** Read back, the escaped term is the term itself, character by
    character: no operator and no escape with a meaning of its own. *)
Lemma lex_escape (q : string) :
  lex (escape_regexp q) = Some (map Literal (list_ascii_of_string q)).
Proof.
  induction q as [|ch q IH]; [done|].
  cbn [escape_regexp]. destruct (is_special ch) eqn:Hsp.
  - cbn [lex]. rewrite Ascii.eqb_refl, IH. rewrite <- special_is_syntax, Hsp. done.
  - cbn [lex]. rewrite (not_special_not_backslash _ Hsp), IH.
    rewrite <- special_is_syntax, Hsp. done.
Qed.

Lemma literal_text_literals (l : list ascii) :
  literal_text (map Literal l) = Some (string_of_list_ascii l).
Proof. induction l as [|ch l IH]; simpl; [done|]. by rewrite IH. Qed.

Lemma regexp_test_escape (q s : string) :
  regexp_test (VRegExp (escape_regexp q) "i") s
  = Some (occurs (toLowerCase q) (toLowerCase s)).
Proof.
  unfold regexp_test. rewrite lex_escape. simpl.
  rewrite literal_text_literals. simpl.
  by rewrite string_of_list_ascii_of_string.
Qed.

(** What [list] hands to [normalizeQuery], for any pre-list hook. *)
Lemma list_query_run (c : controller) (w w1 : world) (q : string) (extraQuery : obj) :
  search_term (w_req w) = Some q →
  preListHandler c (w_req w) w = (Fulfilled extraQuery, w1) →
  list_query c w
  = (Fulfilled (normalizeQuery (mergeDeep (composed_query c (w_req w) q) extraQuery)), w1).
Proof.
  unfold search_term. intros Hq Hhook.
  unfold list_query, read_req, Async.read, Async.ret. unfold Async.bind at 1 2.
  destruct (Js.get (query (w_req w)) "q") eqn:E; try done;
    injection Hq as <-; unfold Async.bind; by rewrite Hhook.
Qed.

(** C5. The list operation escapes the search term before it builds the
    search conditions: each character of the class
    [. * + ? ^ $ { } ( ) | [ ] \] gets a backslash in front, so that the
    pattern, read back by the pattern grammar, is the term itself as
    literal characters and contains no operator.  Each search field is
    matched against that pattern with the flag [i]: the condition holds
    of a text exactly when the term occurs in it, letter case aside.
    These conditions are the [$or] group the list operation composes. *)
Theorem search_term_is_escaped (q : string) :
  (∀ ch, ch ∈ special_chars →
     escape_regexp (String ch EmptyString) = String "\"%char (String ch EmptyString))
  ∧ lex (escape_regexp q) = Some (map Literal (list_ascii_of_string q))
  ∧ (∀ s, regexp_test (VRegExp (escape_regexp q) "i") s
          = Some (occurs (toLowerCase q) (toLowerCase s)))
  ∧ (∀ names, search_conditions q names
              = map (fun field => search_condition field (escape_regexp q)) names)
  ∧ ∀ (c : controller) (w w1 : world) (extraQuery : obj),
      search_term (w_req w) = Some q →
      preListHandler c (w_req w) w = (Fulfilled extraQuery, w1) →
      list_query c w
      = (Fulfilled
           (normalizeQuery
              (mergeDeep
                 [("$or", VArr (map (fun field => search_condition field (escape_regexp q))
                                   (default [] (fieldNamesSearch (options c)))));
                  ("$and", VArr (prepareFilter (query (w_req w))
                                   (default [] (fieldNamesSearchFilter (options c)))))]
                 extraQuery)),
         w1).
Proof.
  split_and!.
  - apply escape_special.
  - apply lex_escape.
  - apply regexp_test_escape.
  - done.
  - intros c w w1 extraQuery Hq Hhook. by rewrite (list_query_run _ _ _ _ _ Hq Hhook).
Qed.

End SearchTerm.

Lemma search_term_is_escaped_witness :
  let w := sample_world [] [("q", VStr "a.b*c")] [] in
  escape_regexp "a.b*c" = "a\.b\*c"
  ∧ regexp_test (VRegExp (escape_regexp "a.b*c") "i") "xA.B*Cx" = Some true
  ∧ regexp_test (VRegExp (escape_regexp "a.b*c") "i") "aXbbbc" = Some false
  ∧ @list_query hex_engine sample_controller w
    = (Fulfilled
         [("$or", VArr [search_condition "title" "a\.b\*c";
                        search_condition "text" "a\.b\*c"])],
       w).
Proof.
  intros w.
  destruct (@search_term_is_escaped hex_engine "a.b*c") as (Hesc & _ & Htest & _ & Hrun).
  split_and!.
  - pose proof (Hesc "."%char (list_elem_of_here _ _)) as Hdot.
    pose proof (Hesc "*"%char (list_elem_of_further _ _ _ (list_elem_of_here _ _))) as Hstar.
    reflexivity.
  - rewrite Htest. reflexivity.
  - rewrite Htest. reflexivity.
  - rewrite (Hrun sample_controller w w [] eq_refl eq_refl). reflexivity.
Defined.

(** ** The empty search term *)

Section EmptySearch.
Context `{IdEngine}.
Import JsFacts.

Lemma prepareFilter_ext (q1 q2 : obj) (names : list string) :
  (∀ name, name ∈ names → Js.get q1 name = Js.get q2 name) →
  prepareFilter q1 names = prepareFilter q2 names.
Proof.
  intros Hagree. unfold prepareFilter. rewrite !prepareFilter_from.
  unfold prepareFilter_as_read. simpl.
  induction names as [|n names IH]; [done|].
  assert (Hn : Js.get q1 n = Js.get q2 n) by apply Hagree, list_elem_of_here.
  assert (Hp : reads_defined q1 n = reads_defined q2 n)
    by (unfold reads_defined; by rewrite Hn).
  assert (Htail : ∀ name, name ∈ names → Js.get q1 name = Js.get q2 name).
  { intros name Hin. apply Hagree. by apply list_elem_of_further. }
  destruct (reads_defined q2 n) eqn:P.
  - rewrite !filter_cons_True by (by rewrite ?Hp, ?P). simpl.
    by rewrite Hn, (IH Htail).
  - rewrite !filter_cons_False by (rewrite ?Hp, ?P; intros []). by apply IH.
Qed.

Lemma get_set_ne (o : obj) k k' v : k ≠ k' → Js.get (Js.set o k v) k' = Js.get o k'.
Proof. intros Hne. unfold Js.get. by rewrite own_set_ne. Qed.

Lemma mergeDeep_empty (target : obj) : mergeDeep target [] = target.
Proof. done. Qed.

(** A fragment with an [$and] of its own adds to the composed group. *)
Lemma mergeDeep_concatenates (search conds extra : list value) :
  mergeDeep [("$or", VArr search); ("$and", VArr conds)] [("$and", VArr extra)]
  = [("$or", VArr search); ("$and", VArr (conds ++ extra))].
Proof. done. Qed.

Lemma normalize_without_search (conds : list value) :
  normalizeQuery [("$or", VArr []); ("$and", VArr conds)]
  = normalizeQuery [("$and", VArr conds)].
Proof. by destruct conds. Qed.

Lemma normalize_with_search (search conds : list value) :
  search ≠ [] →
  Js.own (normalizeQuery [("$or", VArr search); ("$and", VArr conds)]) "$or"
  = Some (VArr search).
Proof.
  intros Hne. rewrite own_normalizeQuery. simpl.
  rewrite (kept_array _ "$or" search) by done. by destruct search.
Qed.

Lemma occurs_empty (s : string) : occurs "" s = true.
Proof. by destruct s. Qed.

Lemma list_query_basic mm modelName opts (w : world) (q : string) :
  let c := BasicController mm modelName opts in
  search_term (w_req w) = Some q →
  list_query c w = (Fulfilled (normalizeQuery (composed_query c (w_req w) q)), w).
Proof.
  intros c Hq. by rewrite (list_query_run c w w q [] Hq eq_refl).
Qed.

(** What the fragment of the pre-list hook does not name is merged as it
    was composed. *)
Lemma mergeDeep_frame (target source : obj) (k : string) :
  Js.own source k = None →
  Js.own (mergeDeep target source) k = Js.own target k.
Proof.
  unfold mergeDeep. simpl. revert target.
  induction source as [|[k' v'] source IH]; intros target Hown; simpl; [done|].
  simpl in Hown. destruct (String.eqb k' k) eqn:E; [done|].
  apply String.eqb_neq in E. rewrite IH by done. by apply own_set_ne.
Qed.

Lemma own_normalizeQuery_array (query : obj) (key : string) (conds : list value) :
  is_group_key key = true →
  Js.own query key = Some (VArr conds) →
  Js.own (normalizeQuery query) key
  = match conds with [] => None | _ :: _ => Some (VArr conds) end.
Proof.
  intros Hkey Hown.
  rewrite own_normalizeQuery, Hkey, (kept_array _ _ _ Hown), (get_own _ _ _ Hown).
  by destruct conds.
Qed.

Lemma composed_without_search (c : controller) (req req' : request) (q q' : string) :
  default [] (fieldNamesSearch (options c)) = [] →
  (∀ name, name ∈ default [] (fieldNamesSearchFilter (options c)) →
     Js.get (query req') name = Js.get (query req) name) →
  composed_query c req' q' = composed_query c req q.
Proof.
  intros Hnil Hagree. unfold composed_query, search_conditions. rewrite Hnil. simpl.
  by rewrite (prepareFilter_ext (query req') (query req)).
Qed.

(** C8, as the code has it.  For a list request with an empty search
    term, the [$or] group that is composed holds one condition per
    configured search field, each with the empty pattern, which matches
    everything; with no search field the group is empty and
    [normalizeQuery] drops it.  This holds whatever the pre-list hook
    does.  When the hook returns a fragment, the final filter is the
    normalized merge of the composed query and the fragment: the search
    conditions are its [$or] group unless the fragment brings one of its
    own, and with no search field [q] has no effect on it, provided [q]
    is not itself one of the exact-match fields and the hook returns the
    same fragment: whatever the search term, the final filter is the
    same. *)
Theorem empty_search_term (c : controller) (w : world) :
  let names := default [] (fieldNamesSearch (options c)) in
  let filters := default [] (fieldNamesSearchFilter (options c)) in
  search_term (w_req w) = Some "" →
  Js.own (composed_query c (w_req w) "") "$or"
  = Some (VArr (map (fun field => search_condition field "") names))
  ∧ (∀ s, regexp_test (VRegExp "" "i") s = Some true)
  ∧ (names = [] →
       Js.own (composed_query c (w_req w) "") "$or" = Some (VArr [])
       ∧ Js.own (normalizeQuery (composed_query c (w_req w) "")) "$or" = None)
  ∧ (∀ (w1 : world) (extraQuery : obj),
       preListHandler c (w_req w) w = (Fulfilled extraQuery, w1) →
       ∃ final,
         list_query c w = (Fulfilled final, w1)
         ∧ final = normalizeQuery (mergeDeep (composed_query c (w_req w) "") extraQuery)
         ∧ (names ≠ [] → Js.own extraQuery "$or" = None →
              Js.own final "$or"
              = Some (VArr (map (fun field => search_condition field "") names)))
         ∧ (names = [] →
              (Js.own extraQuery "$or" = None → Js.own final "$or" = None)
              ∧ (extraQuery = [] →
                   final = normalizeQuery
                             [("$and", VArr (prepareFilter (query (w_req w)) filters))])
              ∧ ("q" ∉ filters →
                   ∀ term w1',
                     let w' := with_query w (Js.set (query (w_req w)) "q" (VStr term)) in
                     preListHandler c (w_req w') w' = (Fulfilled extraQuery, w1') →
                     list_query c w' = (Fulfilled final, w1')))).
Proof.
  intros names filters Hq.
  assert (Hor : Js.own (composed_query c (w_req w) "") "$or"
                = Some (VArr (map (fun field => search_condition field "") names))) by done.
  assert (Hor0 : names = [] →
                 Js.own (composed_query c (w_req w) "") "$or" = Some (VArr [])).
  { intros Hnil. unfold composed_query, search_conditions. fold names. by rewrite Hnil. }
  split_and!.
  - exact Hor.
  - intros s. unfold regexp_test. simpl. by rewrite occurs_empty.
  - intros Hnil. split; [by apply Hor0|].
    by rewrite (own_normalizeQuery_array _ "$or" []) by (done || by apply Hor0).
  - intros w1 extraQuery Hhook. eexists.
    split; [exact (list_query_run c w w1 "" extraQuery Hq Hhook)|].
    split_and!.
    + done.
    + intros Hne Hextra.
      rewrite (own_normalizeQuery_array _ "$or"
                 (map (fun field => search_condition field "") names)) by
        (by rewrite ?mergeDeep_frame).
      fold names in Hne. by destruct names.
    + intros Hnil. specialize (Hor0 Hnil). split_and!.
      * intros Hextra.
        by rewrite (own_normalizeQuery_array _ "$or" []) by (by rewrite ?mergeDeep_frame).
      * intros ->. rewrite mergeDeep_empty. unfold composed_query, search_conditions.
        fold names filters. rewrite Hnil. simpl. apply normalize_without_search.
      * intros Hnotin term w1' w' Hhook'.
        assert (Hq' : search_term (w_req w') = Some term).
        { unfold search_term, w'. simpl. unfold Js.get. by rewrite own_set_eq. }
        rewrite (list_query_run c w' w1' term extraQuery Hq' Hhook').
        rewrite (composed_without_search c (w_req w) (w_req w') "" term Hnil); [done|].
        intros name Hin. unfold w'. simpl. apply get_set_ne. intros <-. done.
Qed.

End EmptySearch.

Lemma empty_search_term_witness :
  let opts := {| fieldNames := ["title"]; populateFields := None;
                 fieldNamesSearch := Some []; fieldNamesSearchFilter := Some ["status"];
                 listExtraQueryFields := None |} in
  let c := BasicController (fun _ => sample_model) "Article" opts in
  let w := sample_world [] [("status", VStr "active")] [] in
  let w' := with_query w [("status", VStr "active"); ("q", VStr "a.b*c")] in
  @list_query hex_engine c w' = (Fulfilled [("$and", VArr [VObj [("status", VStr "active")]])], w')
  ∧ ∃ final,
      @list_query hex_engine sample_controller w = (Fulfilled final, w)
      ∧ Js.own final "$or"
        = Some (VArr [search_condition "title" ""; search_condition "text" ""]).
Proof.
  intros opts c w w'. split.
  2: { destruct (@empty_search_term hex_engine sample_controller w eq_refl)
         as (_ & _ & _ & Hfinal).
       destruct (Hfinal w [] eq_refl) as (final & Hrun & _ & Hsome & _).
       exists final. split; [exact Hrun|]. apply Hsome; [discriminate | reflexivity]. }
  destruct (@empty_search_term hex_engine c w eq_refl) as (_ & _ & Hdrop & Hfinal).
  destruct (Hdrop eq_refl) as [_ _].
  destruct (Hfinal w [] eq_refl) as (final & Hrun & _ & _ & Hnone).
  destruct (Hnone eq_refl) as (_ & Hempty & Hterm).
  assert (Hnotin : "q" ∉ default [] (fieldNamesSearchFilter (options c))).
  { intros Hin. apply list_elem_of_singleton in Hin. discriminate Hin. }
  pose proof (Hterm Hnotin "a.b*c" w' eq_refl) as Hrun'.
  rewrite (Hempty eq_refl) in Hrun'. exact Hrun'.
Defined.

(** C8, as the specification words it, fails: with no search field
    configured and [q] among the exact-match fields, two requests whose
    search term is empty, one with [q] empty and one without [q], get
    different final filters.  So do they, with [q] not among the
    exact-match fields, when the pre-list hook reads [q]. *)
Lemma q_reaches_final_filter :
  ¬ (∀ (opts : controller_options) (w : world) (q1 q2 : obj),
       default [] (fieldNamesSearch opts) = [] →
       search_term (w_req (with_query w q1)) = Some "" →
       search_term (w_req (with_query w q2)) = Some "" →
       (∀ k, k ≠ "q" → Js.own q1 k = Js.own q2 k) →
       (@list_query hex_engine (BasicController (fun _ => sample_model) "Article" opts)
          (with_query w q1)).1
       = (@list_query hex_engine (BasicController (fun _ => sample_model) "Article" opts)
            (with_query w q2)).1)
  ∧ ¬ (∀ (c : controller) (w : world) (q1 q2 : obj),
         default [] (fieldNamesSearch (options c)) = [] →
         "q" ∉ default [] (fieldNamesSearchFilter (options c)) →
         search_term (w_req (with_query w q1)) = Some "" →
         search_term (w_req (with_query w q2)) = Some "" →
         (∀ k, k ≠ "q" → Js.own q1 k = Js.own q2 k) →
         (@list_query hex_engine c (with_query w q1)).1
         = (@list_query hex_engine c (with_query w q2)).1).
Proof.
  assert (Hsame : ∀ k, k ≠ "q" → Js.own [("q", VStr "")] k = Js.own [] k).
  { intros k Hk. cbn [Js.own]. rewrite JsFacts.eqb_ne; [done | by intros <-]. }
  split.
  - intros Hall.
    specialize (Hall unsearchable_options (sample_world [] [] [])
                  [("q", VStr "")] [] eq_refl eq_refl eq_refl Hsame).
    vm_compute in Hall. discriminate Hall.
  - intros Hall.
    assert (Hnotin : "q" ∉ default [] (fieldNamesSearchFilter (options term_matching_controller))).
    { intros Hin. apply list_elem_of_singleton in Hin. discriminate Hin. }
    specialize (Hall term_matching_controller (sample_world [] [] [])
                  [("q", VStr "")] [] eq_refl Hnotin eq_refl eq_refl Hsame).
    vm_compute in Hall. discriminate Hall.
Qed.

(** ** The connection wrapper *)

Section Connect.
Import Connection.

(** C10. The promise [connect] returns is always fulfilled.  When the
    driver's [connect] fails, the failure is written to the console and
    the promise is fulfilled with [undefined]; when it succeeds, the
    debug setting is applied and the promise is fulfilled with the
    driver's connection. *)
Theorem connect_always_fulfils (mongoose : driver) (config : db) (p : process) :
  (∀ err, connect_result mongoose (uri config) (db_options config) = Rejected err →
     connect mongoose config p
     = (Fulfilled VUndefined,
        {| settings := settings p;
           console := console p ++ [ConsoleError (Red "Could not connect to MongoDB!");
                                    ConsoleLog err] |}))
  ∧ (∀ r, connect_result mongoose (uri config) (db_options config) = Fulfilled r →
       connect mongoose config p
       = (Fulfilled (connection mongoose),
          {| settings := Js.set (settings p) "debug" (debug config);
             console := console p |}))
  ∧ ∃ handle p', connect mongoose config p = (Fulfilled handle, p').
Proof.
  destruct config as [u o d]. unfold connect. simpl.
  unfold mongoose_set, console_write. run_async.
  destruct (connect_result mongoose u o) as [r|err]; simpl.
  - split_and!; [intros err [=] | done | by eexists _, _].
  - rewrite <- app_assoc. simpl.
    split_and!; [by intros err' [= <-] | intros r [=] | by eexists _, _].
Qed.

End Connect.

Lemma connect_always_fulfils_witness :
  Connection.connect unreachable_driver sample_db fresh_process
  = (Fulfilled VUndefined,
     {| Connection.settings := [];
        Connection.console :=
          [Connection.ConsoleError (Connection.Red "Could not connect to MongoDB!");
           Connection.ConsoleLog (Error "ECONNREFUSED")] |})
  ∧ Connection.connect reachable_driver sample_db fresh_process
    = (Fulfilled (VObj [("readyState", VNum 1)]),
       {| Connection.settings := [("debug", VBool false)];
          Connection.console := [] |}).
Proof.
  destruct (connect_always_fulfils unreachable_driver sample_db fresh_process)
    as (Hfail & _).
  destruct (connect_always_fulfils reachable_driver sample_db fresh_process)
    as (_ & Hok & _).
  split.
  - exact (Hfail (Error "ECONNREFUSED") eq_refl).
  - exact (Hok VUndefined eq_refl).
Defined.

(** * Further properties of the code *)

(** ** The resolution gate [get], path by path *)

Section GetPaths.
Context `{IdEngine}.
Import JsFacts.

Lemma logged_attach w k v evs evs' :
  {| w_req := w_req (attach (logged w evs) k v);
     w_log := w_log (attach (logged w evs) k v) ++ evs' |}
  = logged (attach w k v) (evs ++ evs').
Proof. unfold logged, attach. simpl. by rewrite app_assoc. Qed.

(** What [get] does with an id that passes the validity test, for each
    way the lookup can settle. *)
Lemma get_valid_run (c : controller) (id : value) (w : world) :
  isValid id = true →
  get c id w
  = match findById_result (model c) id with
    | Fulfilled None =>
        (Fulfilled tt,
         logged w (lookup_calls c id
                   ++ [EvStatus 404;
                       EvSend (message_payload
                                 (VStr "No item with that identifier has been found"))]))
    | Fulfilled (Some doc) =>
        (Fulfilled tt,
         logged (attach w (modelNameAttr c) (VObj doc)) (lookup_calls c id ++ [EvNext None]))
    | Rejected e =>
        (Fulfilled tt, logged w (lookup_calls c id ++ [EvNext (Some e)]))
    end.
Proof.
  intros Hvalid. unfold get, lookup_calls. rewrite Hvalid. simpl.
  destruct (populateFields (options c)) as [fields|];
    destruct (findById_result (model c) id) as [[doc|]|e];
    run_async; unfold logged, attach; simpl; rewrite <- ?app_assoc; reflexivity.
Qed.

Lemma lookup_calls_storage_only (c : controller) (id : value) :
  List.filter is_response_event (lookup_calls c id) = []
  ∧ List.filter is_next_event (lookup_calls c id) = [].
Proof. unfold lookup_calls. by destruct (populateFields (options c)). Qed.

(** X1. Whatever the id and whatever the storage engine answers, [get]
    settles normally and does exactly one of two things: it answers the
    request (one status and one body) and does not call [next], or it
    calls [next] once and sends no answer. *)
Theorem get_answers_or_continues (c : controller) (id : value) (w : world) :
  ∃ evs w',
    get c id w = (Fulfilled tt, w')
    ∧ w_log w' = w_log w ++ evs
    ∧ ((∃ code payload,
          List.filter is_response_event evs = [EvStatus code; EvSend payload]
          ∧ List.filter is_next_event evs = [])
       ∨ (∃ err,
            List.filter is_response_event evs = []
            ∧ List.filter is_next_event evs = [EvNext err])).
Proof.
  destruct (lookup_calls_storage_only c id) as [Hresp Hnext].
  destruct (isValid id) eqn:Hvalid.
  - rewrite (get_valid_run c id w Hvalid).
    destruct (findById_result (model c) id) as [[doc|]|e];
      eexists _, _; (split; [reflexivity|]); (split; [reflexivity|]);
      rewrite !List.filter_app, Hresp, Hnext; simpl.
    + right. by eexists.
    + left. by eexists _, _.
    + right. by eexists.
  - unfold get. rewrite Hvalid. simpl. rewrite send_message_run.
    eexists _, _. split; [reflexivity|]. split; [reflexivity|].
    left. by eexists _, _.
Qed.

(** X2. A well-formed id that names no document: the storage engine is
    asked once, with the population of [user] and of the configured
    fields, and the answer is status 404 with the message "No item with
    that identifier has been found"; the request is left as it was and
    [next] is not called. *)
Theorem get_not_found (c : controller) (id : value) (w : world) :
  isValid id = true →
  findById_result (model c) id = Fulfilled None →
  get c id w
  = (Fulfilled tt,
     logged w (lookup_calls c id
               ++ [EvStatus 404;
                   EvSend (message_payload
                             (VStr "No item with that identifier has been found"))]))
  ∧ w_req (get c id w).2 = w_req w
  ∧ List.filter is_next_event (w_log (get c id w).2) = List.filter is_next_event (w_log w).
Proof.
  intros Hvalid Hnone. rewrite (get_valid_run c id w Hvalid), Hnone.
  split_and!; [done | done |]. unfold logged. cbn [snd w_log].
  destruct (lookup_calls_storage_only c id) as [_ Hnext].
  by rewrite !List.filter_app, Hnext, app_nil_r.
Qed.

(** X3. When the lookup itself fails, [get] sends no answer: the error
    goes to [next], the request is left as it was, and the promise of
    [get] is fulfilled. *)
Theorem get_forwards_storage_error (c : controller) (id err : value) (w : world) :
  isValid id = true →
  findById_result (model c) id = Rejected err →
  get c id w = (Fulfilled tt, logged w (lookup_calls c id ++ [EvNext (Some err)]))
  ∧ w_req (get c id w).2 = w_req w
  ∧ List.filter is_response_event (w_log (get c id w).2)
    = List.filter is_response_event (w_log w).
Proof.
  intros Hvalid Herr. rewrite (get_valid_run c id w Hvalid), Herr.
  split_and!; [done | done |]. unfold logged. cbn [snd w_log].
  destruct (lookup_calls_storage_only c id) as [Hresp _].
  by rewrite !List.filter_app, Hresp, app_nil_r.
Qed.

(** X4. [get] then [read]: when the id names a document, the router is
    told to go on and [read] then answers with that very document. *)
Theorem get_then_read (c : controller) (id : value) (doc : obj) (w : world) :
  isValid id = true →
  findById_result (model c) id = Fulfilled (Some doc) →
  Async.bind (get c id) (fun _ => read c) w
  = (Fulfilled tt,
     logged (attach w (modelNameAttr c) (VObj doc))
       (lookup_calls c id ++ [EvNext None; EvJson (VObj doc)])).
Proof.
  intros Hvalid Hdoc. unfold Async.bind at 1.
  rewrite (get_valid_run c id w Hvalid), Hdoc.
  unfold read, read_req. run_async. unfold Js.get. rewrite own_set_eq. simpl.
  unfold logged, attach, lookup_calls. simpl.
  destruct (populateFields (options c)); by rewrite <- app_assoc.
Qed.

(** X5. [get] then [delete], with the controller's own hooks: the
    document that is deleted is the one the id named, and the answer is
    what the dispatcher makes of the outcome of that delete. *)
Theorem get_then_delete mongoose_model modelName opts (id : value) (doc : obj) (w : world) :
  let c := BasicController mongoose_model modelName opts in
  isValid id = true →
  findById_result (model c) id = Fulfilled (Some doc) →
  let found := logged (attach w (modelNameAttr c) (VObj doc))
                 (lookup_calls c id ++ [EvNext None]) in
  Async.bind (get c id) (fun _ => delete c) w = operation c DELETE (VObj doc) found
  ∧ reports (delete_result (model c) doc) (EvDelete doc)
      (Async.bind (get c id) (fun _ => delete c) w) found.
Proof.
  intros c Hvalid Hdoc found.
  assert (Hrun : Async.bind (get c id) (fun _ => delete c) w
                 = operation c DELETE (VObj doc) found).
  { unfold Async.bind at 1. rewrite (get_valid_run c id w Hvalid), Hdoc.
    fold found. apply delete_dispatch.
    unfold found, c. simpl. unfold basic_preDeleteHandler, Async.ret.
    unfold Js.get. by rewrite own_set_eq. }
  rewrite Hrun. split; [done | apply operation_delete].
Qed.

End GetPaths.

Lemma get_not_found_witness :
  let id := VStr "5f1d7f3e9d3e2a0017a3c111" in
  @get hex_engine sample_controller id (sample_world [] [] [])
  = (Fulfilled tt,
     logged (sample_world [] [] [])
       [EvFindById id; EvPopulate "user" (Some "displayName"); EvStatus 404;
        EvSend (VObj [("message", VStr "No item with that identifier has been found")])]).
Proof.
  intros id.
  destruct (@get_not_found hex_engine sample_controller id (sample_world [] [] [])
              eq_refl eq_refl) as (Hrun & _).
  exact Hrun.
Defined.

Lemma get_forwards_storage_error_witness :
  let id := VStr "5f1d7f3e9d3e2a0017a3c111" in
  let c := BasicController (fun _ => failing_model) "Article" sample_options in
  @get hex_engine c id (sample_world [] [] [])
  = (Fulfilled tt,
     logged (sample_world [] [] [])
       [EvFindById id; EvPopulate "user" (Some "displayName"); EvNext (Some (Error "down"))]).
Proof.
  intros id c.
  destruct (@get_forwards_storage_error hex_engine c id (Error "down")
              (sample_world [] [] []) eq_refl eq_refl) as (Hrun & _).
  exact Hrun.
Defined.

Lemma get_then_read_witness :
  let id := VStr "5f1d7f3e9d3e2a0017a3c111" in
  let c := BasicController (fun _ => finding_model) "Article" sample_options in
  w_log (Async.bind (@get hex_engine c id) (fun _ => read c) (sample_world [] [] [])).2
  = [EvFindById id; EvPopulate "user" (Some "displayName"); EvNext None;
     EvJson (VObj [("title", VStr "found")])].
Proof.
  intros id c.
  rewrite (@get_then_read hex_engine c id [("title", VStr "found")]
             (sample_world [] [] []) eq_refl eq_refl).
  reflexivity.
Defined.

Lemma get_then_delete_witness :
  let id := VStr "5f1d7f3e9d3e2a0017a3c111" in
  let c := BasicController (fun _ => finding_model) "Article" sample_options in
  w_log (Async.bind (@get hex_engine c id) (fun _ => delete c) (sample_world [] [] [])).2
  = [EvFindById id; EvPopulate "user" (Some "displayName"); EvNext None;
     EvDelete [("title", VStr "found")]; EvJson (VObj [("title", VStr "found")])].
Proof.
  intros id c.
  destruct (@get_then_delete hex_engine (fun _ => finding_model) "Article" sample_options
              id [("title", VStr "found")] (sample_world [] [] []) eq_refl eq_refl)
    as (_ & _ & Hok).
  fold c in Hok. rewrite (Hok _ eq_refl). reflexivity.
Defined.

(** ** Mutations at the edges *)

Section MutationEdges.
Import JsFacts.

Lemma member_readable (e : value) (k : string) :
  readable e = true → member e k = Fulfilled (Js.prop e k).
Proof. by destruct e. Qed.

Lemma member_unreadable (e : value) (k : string) :
  readable e = false → ∃ err, member e k = Rejected err.
Proof. destruct e; try done; by eexists. Qed.

(** X6. [delete] with nothing resolved under the model's name, and the
    controller's own hooks: the call of the missing item's method throws
    inside the dispatcher, before any storage call, and the caller gets
    status 400 with the message of that very error. *)
Theorem delete_without_document mongoose_model modelName opts (w : world) :
  let c := BasicController mongoose_model modelName opts in
  Js.get (attrs (w_req w)) (modelNameAttr c) = VUndefined →
  ∃ err m,
    call_method (model c) VUndefined DELETE w = (Rejected err, w)
    ∧ member err "message" = Fulfilled m
    ∧ delete c w = (Fulfilled tt, logged w [EvStatus 400; EvSend (message_payload m)]).
Proof.
  intros c Hnone.
  rewrite (delete_dispatch c w VUndefined w)
    by (unfold c; simpl; unfold basic_preDeleteHandler, Async.ret; simpl in Hnone;
        by rewrite Hnone).
  eexists _, _. split_and!; [reflexivity | reflexivity |].
  unfold operation, call_method. run_async.
  unfold logged. simpl. rewrite <- app_assoc. reflexivity.
Qed.

(** X7. [update] with nothing resolved under the model's name: once the
    pre-update hook has returned, the operation is rejected where it
    stands; no answer is sent and no storage call is made. *)
Theorem update_without_document (c : controller) (w w1 : world) (payload : obj) :
  preUpdateHandler c (w_req w) (itemData_of (fieldNames (options c)) (body (w_req w))) w
    = (Fulfilled payload, w1) →
  Js.get (attrs (w_req w1)) (modelNameAttr c) = VUndefined
  ∨ Js.get (attrs (w_req w1)) (modelNameAttr c) = VNull →
  ∃ err, update c w = (Rejected err, w1).
Proof.
  intros Hhook Hslot. unfold update, read_req, Async.read, Async.ret.
  unfold Async.bind at 1 2 3. rewrite Hhook. unfold Async.bind at 1 2.
  destruct Hslot as [-> | ->]; by eexists.
Qed.

(** X8. [update] with the controller's own hooks writes every whitelisted
    field with what [req.body[field]] reads: on the document that is
    saved, a field of [fieldNames] has the value read on the body, and so
    a field whose read on the body is [undefined] (one the body leaves
    out and does not inherit) is set to [undefined]. *)
Theorem update_erases_omitted_fields mongoose_model modelName opts (w : world)
    (doc : obj) (field : string) :
  let c := BasicController mongoose_model modelName opts in
  Js.get (attrs (w_req w)) (modelNameAttr c) = VObj doc →
  field ∈ fieldNames opts →
  field ≠ "__proto__" →
  ∃ item,
    update c w = operation c SAVE (VObj item) (attach w (modelNameAttr c) (VObj item))
    ∧ Js.own item field = Some (Js.get (body (w_req w)) field)
    ∧ (Js.get (body (w_req w)) field = VUndefined → Js.own item field = Some VUndefined).
Proof.
  intros c Hdoc Hin Hproto.
  destruct (update_basic_fields mongoose_model modelName opts w doc field Hdoc)
    as (item & Hrun & Hfield).
  exists item. rewrite Hfield, decide_True by done.
  split_and!; [exact Hrun | done | by intros ->].
Qed.

(** X9. The dispatcher answers exactly once.  Whatever the item and the
    intent, provided the storage engine never rejects with [undefined] or
    [null], the dispatcher settles normally, sends one answer (the result
    as JSON, or status 400 with a message) and makes at most one storage
    call. *)
Theorem operation_responds_once (c : controller) (operationType : string)
    (item : value) (w : world) :
  (∀ doc e, save_result (model c) doc = Rejected e → readable e = true) →
  (∀ doc e, delete_result (model c) doc = Rejected e → readable e = true) →
  ∃ evs,
    operation c operationType item w = (Fulfilled tt, logged w evs)
    ∧ ((∃ r, List.filter is_response_event evs = [EvJson r])
       ∨ (∃ m, List.filter is_response_event evs
               = [EvStatus 400; EvSend (message_payload m)]))
    ∧ (length (List.filter is_storage_event evs) ≤ 1)%nat.
Proof.
  intros Hsave Hdelete. unfold operation, call_method.
  destruct item as [| | | | | | | |doc|];
    try (eexists; run_async; unfold logged; simpl; rewrite <- ?app_assoc;
         split; [reflexivity|]; split; [right; by eexists | simpl; lia]).
  destruct (String.eqb operationType "save") eqn:E1;
    [|destruct (String.eqb operationType "delete") eqn:E2].
  - destruct (save_result (model c) doc) as [r|e] eqn:R.
    + eexists. run_async. unfold logged. simpl. rewrite <- ?app_assoc.
      split; [reflexivity|]. split; [left; by eexists | simpl; lia].
    + eexists. run_async. rewrite (member_readable e "message" (Hsave doc e R)).
      unfold logged. simpl. rewrite <- ?app_assoc.
      split; [reflexivity|]. split; [right; by eexists | simpl; lia].
  - destruct (delete_result (model c) doc) as [r|e] eqn:R.
    + eexists. run_async. unfold logged. simpl. rewrite <- ?app_assoc.
      split; [reflexivity|]. split; [left; by eexists | simpl; lia].
    + eexists. run_async. rewrite (member_readable e "message" (Hdelete doc e R)).
      unfold logged. simpl. rewrite <- ?app_assoc.
      split; [reflexivity|]. split; [right; by eexists | simpl; lia].
  - eexists. run_async. unfold logged. simpl. rewrite <- ?app_assoc.
    split; [reflexivity|]. split; [right; by eexists | simpl; lia].
Qed.

(** X10. When [save] or [delete] rejects with [undefined] or [null], the
    handler of the dispatcher fails on reading the message: the storage
    call has been made and status 400 has been set, but no body is sent,
    and the dispatcher itself is rejected. *)
Theorem operation_breaks_on_empty_rejection (c : controller) (doc : obj) (e : value)
    (w : world) :
  readable e = false →
  (save_result (model c) doc = Rejected e →
     ∃ err, operation c SAVE (VObj doc) w
            = (Rejected err, logged w [EvSave doc; EvStatus 400]))
  ∧ (delete_result (model c) doc = Rejected e →
       ∃ err, operation c DELETE (VObj doc) w
              = (Rejected err, logged w [EvDelete doc; EvStatus 400])).
Proof.
  intros Hempty. destruct (member_unreadable e "message" Hempty) as [err Herr].
  split; intros R; exists err; unfold operation, Async.catch, Async.bind at 1.
  - rewrite call_method_save, R. run_async. rewrite Herr.
    unfold logged. simpl. by rewrite <- app_assoc.
  - rewrite call_method_delete, R. run_async. rewrite Herr.
    unfold logged. simpl. by rewrite <- app_assoc.
Qed.

(** X11. An error raised by a pre-hook is not turned into an answer:
    create, update and delete are rejected with that error, in the world
    the hook left; the dispatcher is not reached, so no storage call and
    no answer follow. *)
Theorem hook_rejection_propagates (c : controller) (w w1 : world) (e : value) :
  (preCreateHandler c (w_req w) (itemData_of (fieldNames (options c)) (body (w_req w))) w
     = (Rejected e, w1) → create c w = (Rejected e, w1))
  ∧ (preUpdateHandler c (w_req w) (itemData_of (fieldNames (options c)) (body (w_req w))) w
       = (Rejected e, w1) → update c w = (Rejected e, w1))
  ∧ (preDeleteHandler c (w_req w) (Js.get (attrs (w_req w)) (modelNameAttr c)) w
       = (Rejected e, w1) → delete c w = (Rejected e, w1)).
Proof.
  split_and!; intros Hhook.
  - unfold create, read_req, Async.read, Async.ret. unfold Async.bind at 1 2 3.
    by rewrite Hhook.
  - unfold update, read_req, Async.read, Async.ret. unfold Async.bind at 1 2 3.
    by rewrite Hhook.
  - unfold delete, read_req, Async.read, Async.ret. unfold Async.bind at 1 2 3.
    by rewrite Hhook.
Qed.

End MutationEdges.

Lemma delete_without_document_witness :
  ∃ err m,
    call_method sample_model VUndefined DELETE (sample_world [] [] [])
    = (Rejected err, sample_world [] [] [])
    ∧ member err "message" = Fulfilled m
    ∧ delete sample_controller (sample_world [] [] [])
      = (Fulfilled tt,
         logged (sample_world [] [] []) [EvStatus 400; EvSend (message_payload m)]).
Proof.
  exact (delete_without_document (fun _ => sample_model) "Article" sample_options
           (sample_world [] [] []) eq_refl).
Defined.

Lemma update_without_document_witness :
  ∃ err, update sample_controller (sample_world [("title", VStr "T")] [] [])
         = (Rejected err, sample_world [("title", VStr "T")] [] []).
Proof.
  exact (update_without_document sample_controller
           (sample_world [("title", VStr "T")] [] [])
           (sample_world [("title", VStr "T")] [] [])
           [("title", VStr "T")] eq_refl (or_introl eq_refl)).
Defined.

Lemma update_erases_omitted_fields_witness :
  let w := sample_world [("other", VNum 1)] [] [("article", VObj [("title", VStr "old")])] in
  ∃ item,
    update sample_controller w
    = operation sample_controller SAVE (VObj item) (attach w "article" (VObj item))
    ∧ Js.own item "title" = Some VUndefined.
Proof.
  intros w.
  destruct (update_erases_omitted_fields (fun _ => sample_model) "Article" sample_options
              w [("title", VStr "old")] "title" eq_refl)
    as (item & Hrun & _ & Hundefined).
  - apply list_elem_of_here.
  - discriminate.
  - exists item. split; [exact Hrun | exact (Hundefined eq_refl)].
Defined.

Lemma operation_responds_once_witness :
  ∃ evs,
    operation sample_controller SAVE (VObj [("title", VStr "bad")]) (sample_world [] [] [])
    = (Fulfilled tt, logged (sample_world [] [] []) evs)
    ∧ List.filter is_response_event evs
      = [EvStatus 400; EvSend (message_payload (VStr "boom"))].
Proof.
  destruct (operation_responds_once sample_controller SAVE (VObj [("title", VStr "bad")])
              (sample_world [] [] [])) as (evs & Hrun & _ & _).
  - intros doc e. simpl.
    destruct (Js.get doc "title") as [| | | |t| | | | |]; try discriminate.
    destruct (String.eqb t "bad"); [|discriminate]. intros [= <-]. reflexivity.
  - intros doc e. simpl. intros [= <-]. reflexivity.
  - exists evs. split; [exact Hrun|].
    assert (Hevs : evs = [EvSave [("title", VStr "bad")]; EvStatus 400;
                          EvSend (message_payload (VStr "boom"))]).
    { injection Hrun as Hlog. symmetry. exact Hlog. }
    rewrite Hevs. reflexivity.
Defined.

Lemma operation_breaks_on_empty_rejection_witness :
  let c := BasicController (fun _ => failing_model) "Article" sample_options in
  ∃ err, operation c SAVE (VObj [("title", VStr "T")]) (sample_world [] [] [])
         = (Rejected err,
            logged (sample_world [] [] []) [EvSave [("title", VStr "T")]; EvStatus 400]).
Proof.
  intros c.
  destruct (operation_breaks_on_empty_rejection c [("title", VStr "T")] VUndefined
              (sample_world [] [] []) eq_refl) as (Hsave & _).
  exact (Hsave eq_refl).
Defined.

Lemma hook_rejection_propagates_witness :
  let w := sample_world [("title", VStr "T")] [] [("article", VObj [])] in
  create refusing_controller w = (Rejected (Error "forbidden"), w)
  ∧ update refusing_controller w = (Rejected (Error "forbidden"), w)
  ∧ delete refusing_controller w = (Rejected (Error "forbidden"), w).
Proof.
  intros w.
  destruct (hook_rejection_propagates refusing_controller w w (Error "forbidden"))
    as (Hcreate & Hupdate & Hdelete).
  split_and!; [exact (Hcreate eq_refl) | exact (Hupdate eq_refl) | exact (Hdelete eq_refl)].
Defined.

(** ** More on [normalizeQuery] *)

Section NormalizeShape.
Import JsFacts.

Lemma set_fresh (o : obj) k v : Js.own o k = None → Js.set o k v = o ++ [(k, v)].
Proof.
  induction o as [|[k' v'] o IH]; simpl; [done|].
  destruct (String.eqb k' k); [done|]. intros Hown. by rewrite IH.
Qed.

Lemma own_app (a b : obj) k :
  Js.own (a ++ b) k = match Js.own a k with Some v => Some v | None => Js.own b k end.
Proof.
  induction a as [|[k' v'] a IH]; simpl; [done|].
  by destruct (String.eqb k' k).
Qed.

Lemma own_kept_group query key k :
  Js.own (kept_group query key) k
  = if String.eqb key k then (if kept query key then Some (Js.get query key) else None)
    else None.
Proof.
  unfold kept_group. destruct (kept query key); simpl; by destruct (String.eqb key k).
Qed.

(** The result, written out: the other keys in their order, then [$or] if
    it is kept, then [$and] if it is kept. *)
Lemma normalizeQuery_as_append (query : obj) :
  normalizeQuery query
  = rest_of query ++ kept_group query "$or" ++ kept_group query "$and".
Proof.
  unfold normalizeQuery. simpl. unfold normalize_step, kept_group.
  fold (kept query "$or") (kept query "$and"). unfold Js.assign. simpl.
  destruct (kept query "$or"), (kept query "$and"); simpl.
  - rewrite (set_fresh (rest_of query) "$or") by (by rewrite own_rest_of).
    rewrite set_fresh; [by rewrite <- app_assoc|].
    rewrite own_app, own_rest_of. done.
  - by rewrite set_fresh by (by rewrite own_rest_of).
  - by rewrite set_fresh by (by rewrite own_rest_of).
  - by rewrite app_nil_r.
Qed.

Lemma kept_normalizeQuery (query : obj) (key : string) :
  is_group_key key = true →
  kept (normalizeQuery query) key = kept query key
  ∧ (kept query key = true → Js.get (normalizeQuery query) key = Js.get query key).
Proof.
  intros Hkey.
  assert (Hget : Js.get (normalizeQuery query) key
                 = if kept query key then Js.get query key else VUndefined).
  { unfold Js.get at 1. rewrite own_normalizeQuery, Hkey.
    destruct (kept query key); [done|].
    by destruct (group_key_cases key Hkey) as [-> | ->]. }
  split.
  - unfold kept at 1. rewrite Hget. destruct (kept query key) eqn:K; [exact K | done].
  - intros K. by rewrite Hget, K.
Qed.

Lemma kept_group_normalizeQuery (query : obj) (key : string) :
  is_group_key key = true →
  kept_group (normalizeQuery query) key = kept_group query key.
Proof.
  intros Hkey. destruct (kept_normalizeQuery query key Hkey) as [Hk Hg].
  unfold kept_group. rewrite Hk. destruct (kept query key); [by rewrite Hg | done].
Qed.

Lemma rest_of_normalizeQuery (query : obj) :
  rest_of (normalizeQuery query) = rest_of query.
Proof.
  unfold normalizeQuery. simpl.
  rewrite !rest_of_normalize_step by done. apply rest_of_idemp.
Qed.

Lemma keys_kept_group query key :
  Js.keys (kept_group query key) = if kept query key then [key] else [].
Proof. unfold kept_group. by destruct (kept query key). Qed.

(** X12. The result of [normalizeQuery] is the input's other keys in
    their order, followed by [$or] and then [$and] when they are kept:
    wherever the groups stood in the input, they come last.  Keys that
    were distinct stay distinct. *)
Theorem normalizeQuery_shape (query : obj) :
  normalizeQuery query
  = rest_of query ++ kept_group query "$or" ++ kept_group query "$and"
  ∧ (NoDup (Js.keys query) → NoDup (Js.keys (normalizeQuery query))).
Proof.
  split; [apply normalizeQuery_as_append|].
  intros Hnd. rewrite normalizeQuery_as_append. unfold Js.keys.
  rewrite !fmap_app. fold (Js.keys (rest_of query)).
  fold (Js.keys (kept_group query "$or")) (Js.keys (kept_group query "$and")).
  rewrite !keys_kept_group.
  assert (Hrest : NoDup (Js.keys (rest_of query))).
  { unfold Js.keys, rest_of.
    refine (sublist_NoDup _ _ Hnd _). apply fmap_sublist, sublist_filter. }
  assert (Hor : "$or" ∉ Js.keys (rest_of query))
    by (apply own_None_keys; by rewrite own_rest_of).
  assert (Hand : "$and" ∉ Js.keys (rest_of query))
    by (apply own_None_keys; by rewrite own_rest_of).
  apply NoDup_app. split_and!; [done | |].
  - intros k Hk Hk'. destruct (kept query "$or"), (kept query "$and"); simpl in Hk';
      repeat (apply elem_of_cons in Hk' as [-> | Hk']); try done;
      by apply elem_of_nil in Hk'.
  - destruct (kept query "$or"), (kept query "$and"); simpl;
      apply (bool_decide_unpack _); vm_compute; exact I.
Qed.

(** X13. Normalizing twice is normalizing once. *)
Theorem normalizeQuery_idempotent (query : obj) :
  normalizeQuery (normalizeQuery query) = normalizeQuery query.
Proof.
  rewrite (normalizeQuery_as_append (normalizeQuery query)).
  rewrite rest_of_normalizeQuery, !kept_group_normalizeQuery by done.
  symmetry. apply normalizeQuery_as_append.
Qed.

(** X14. The test of line 18 is on [length]: a group given as anything
    without one (a single condition object in place of a list of
    conditions, a number, a boolean, [null]) is left out of the result,
    empty or not. *)
Theorem normalizeQuery_drops_lengthless (query : obj) (key : string) (v : value) :
  is_group_key key = true →
  Js.own query key = Some v →
  lengthless v = true →
  Js.own (normalizeQuery query) key = None.
Proof.
  intros Hkey Hown Hless. rewrite own_normalizeQuery, Hkey.
  assert (kept query key = false) as ->; [|done].
  unfold kept. rewrite (get_own _ _ _ Hown).
  destruct v as [| |b|n|t|r|src fl|items|o|f a]; try done; unfold Js.and_; simpl.
  - by destruct b.
  - destruct (n =? 0)%Z eqn:E; simpl; by rewrite ?E.
  - simpl in Hless. unfold Js.get. by destruct (Js.own o "length").
Qed.

End NormalizeShape.

Lemma normalizeQuery_drops_lengthless_witness :
  Js.own (normalizeQuery [("$and", VObj [("status", VStr "active")]); ("owner", VStr "ann")])
    "$and" = None.
Proof.
  apply (normalizeQuery_drops_lengthless _ "$and" (VObj [("status", VStr "active")]));
    reflexivity.
Defined.

Lemma normalizeQuery_shape_witness :
  let query := [("$and", VArr [VObj [("a", VNum 1)]]); ("owner", VStr "ann");
                ("$or", VArr [VObj [("b", VNum 2)]])] in
  normalizeQuery query
  = [("owner", VStr "ann"); ("$or", VArr [VObj [("b", VNum 2)]]);
     ("$and", VArr [VObj [("a", VNum 1)]])]
  ∧ NoDup (Js.keys (normalizeQuery query)).
Proof.
  intros query. destruct (normalizeQuery_shape query) as [Hshape Hnd]. split.
  - rewrite Hshape. reflexivity.
  - apply Hnd. apply (bool_decide_unpack _). vm_compute. exact I.
Defined.

(** ** More on [prepareFilter] *)

Section FilterScope.
Context `{IdEngine}.
Import JsFacts.

Lemma prepareFilter_is_as_read (query : obj) (eligible : list string) :
  prepareFilter query eligible = prepareFilter_as_read query eligible.
Proof. unfold prepareFilter. by rewrite prepareFilter_from. Qed.

(** X15. Only the eligible fields reach the filter.  Every condition
    [prepareFilter] returns is on a field of the eligible list whose read
    on the mapping, [query[field]], is not [undefined], and carries the
    value read (as a native id when it is a valid id); two mappings that
    read the same on the eligible fields give the same conditions,
    whatever else they hold. *)
Theorem prepareFilter_only_eligible (query : obj) (eligible : list string) :
  (∀ cond, cond ∈ prepareFilter query eligible →
     ∃ name, name ∈ eligible
             ∧ Js.get query name ≠ VUndefined
             ∧ cond = equality_condition name (to_native (Js.get query name)))
  ∧ (∀ query' : obj,
       (∀ name, name ∈ eligible → Js.get query name = Js.get query' name) →
       prepareFilter query' eligible = prepareFilter query eligible).
Proof.
  split.
  - intros cond. rewrite prepareFilter_is_as_read. unfold prepareFilter_as_read.
    intros Hin. apply list_elem_of_fmap in Hin as (name & -> & Hname).
    apply list_elem_of_filter in Hname as [Hp Hin].
    exists name. split_and!; [done | | done].
    unfold reads_defined in Hp. intros Hundef. by rewrite Hundef in Hp.
  - intros query' Hagree. symmetry. by apply prepareFilter_ext.
Qed.

(** X16. Filtering on a longer list of fields adds conditions after the
    ones there: on two lists put end to end, [prepareFilter] gives the
    conditions of the first followed by those of the second. *)
Theorem prepareFilter_app (query : obj) (first second : list string) :
  prepareFilter query (first ++ second)
  = prepareFilter query first ++ prepareFilter query second.
Proof.
  rewrite !prepareFilter_is_as_read. unfold prepareFilter_as_read.
  by rewrite filter_app, map_app.
Qed.

End FilterScope.

Lemma prepareFilter_only_eligible_witness :
  let query := [("status", VStr "active"); ("$where", VStr "sleep(1000)")] in
  @prepareFilter hex_engine [("status", VStr "active")] ["status"; "owner"]
  = @prepareFilter hex_engine query ["status"; "owner"]
  ∧ ∃ name, name ∈ ["status"; "owner"]
            ∧ VObj [("status", VStr "active")]
              = equality_condition name (@to_native hex_engine (Js.get query name)).
Proof.
  intros query.
  destruct (@prepareFilter_only_eligible hex_engine query ["status"; "owner"])
    as [Hcond Hagree].
  split.
  - apply Hagree. intros name Hin.
    apply elem_of_cons in Hin as [-> | Hin]; [reflexivity|].
    apply list_elem_of_singleton in Hin as ->. reflexivity.
  - destruct (Hcond (VObj [("status", VStr "active")])) as (name & Hin & _ & Heq).
    + apply list_elem_of_here.
    + exists name. split; [exact Hin | exact Heq].
Defined.

(** ** More on the escaping of the search term *)

Section Escaping.

Lemma escape_length (q : string) :
  String.length (escape_regexp q)
  = (String.length q + length (List.filter is_special (list_ascii_of_string q)))%nat.
Proof.
  induction q as [|ch q IH]; [done|]. simpl.
  destruct (is_special ch); simpl; rewrite IH; lia.
Qed.

Lemma filter_length_le {A} (f : A → bool) (l : list A) :
  (length (List.filter f l) ≤ length l)%nat.
Proof. induction l as [|x l IH]; simpl; [lia|]. destruct (f x); simpl; lia. Qed.

Lemma length_list_ascii (q : string) :
  length (list_ascii_of_string q) = String.length q.
Proof. induction q as [|ch q IH]; simpl; [done | by rewrite IH]. Qed.

(** X17. The escaped term can be read back: the pattern's literals spell
    the term, so two search terms with the same pattern are the same
    term. *)
Theorem escape_regexp_reads_back (q : string) :
  lex (escape_regexp q) ≫= literal_text = Some q
  ∧ ∀ q', escape_regexp q' = escape_regexp q → q' = q.
Proof.
  assert (Hback : ∀ t, lex (escape_regexp t) ≫= literal_text = Some t).
  { intros t. rewrite lex_escape. simpl. rewrite literal_text_literals.
    by rewrite string_of_list_ascii_of_string. }
  split; [apply Hback|].
  intros q' Heq. pose proof (Hback q') as Hq'. rewrite Heq, Hback in Hq'.
  by injection Hq'.
Qed.

(** X18. A term with none of the characters of the class comes out of the
    escaping unchanged, and only such a term does; the escaped term is
    never shorter than the term and at most twice as long. *)
Theorem escape_regexp_plain (q : string) :
  (escape_regexp q = q ↔ plain q = true)
  ∧ (String.length q ≤ String.length (escape_regexp q) ≤ 2 * String.length q)%nat.
Proof.
  split.
  - unfold plain. induction q as [|ch q IH]; [done|]. simpl.
    destruct (is_special ch) eqn:Hsp; simpl.
    + split; [|done]. intros Heq. apply (f_equal String.length) in Heq.
      simpl in Heq. rewrite escape_length in Heq. lia.
    + rewrite <- IH. split; [by intros [= ?] | by intros ->].
  - rewrite escape_length.
    pose proof (filter_length_le is_special (list_ascii_of_string q)) as Hle.
    rewrite length_list_ascii in Hle. lia.
Qed.

End Escaping.

Lemma escape_regexp_reads_back_witness :
  lex "a\.b" ≫= literal_text = Some "a.b"
  ∧ "a.b" = "a.b".
Proof.
  destruct (escape_regexp_reads_back "a.b") as [Hback Hinj].
  split; [exact Hback | exact (Hinj "a.b" eq_refl)].
Defined.

Lemma escape_regexp_plain_witness :
  escape_regexp "report 2024" = "report 2024".
Proof.
  destruct (escape_regexp_plain "report 2024") as [[_ Hplain] _].
  exact (Hplain eq_refl).
Defined.

(** ** The whole of [list] *)

Section ListWhole.
Context `{IdEngine} `{JsNumber}.

Lemma exact_safe (n : Z) : (Z.abs n ≤ 2 ^ 53)%Z → exact n = Some n.
Proof. intros Hn. unfold exact. by rewrite (proj2 (Z.leb_le _ _) Hn). Qed.

Lemma js_sub_some (a b : Z) : js_sub (Some a) (Some b) = exact (a - b).
Proof. done. Qed.

Lemma js_mul_some (a b : Z) : js_mul (Some a) (Some b) = exact (a * b).
Proof. done. Qed.

Lemma list_query_needs_string (c : controller) (w : world) :
  search_term (w_req w) = None →
  ∃ err, list_query c w = (Rejected err, w).
Proof.
  unfold search_term. intros Hq.
  unfold list_query, read_req, Async.read, Async.ret. unfold Async.bind at 1 2.
  destruct (Js.get (query (w_req w)) "q"); try done; by eexists.
Qed.

Lemma list_query_hook_rejects (c : controller) (w w1 : world) (q : string) (e : value) :
  search_term (w_req w) = Some q →
  preListHandler c (w_req w) w = (Rejected e, w1) →
  list_query c w = (Rejected e, w1).
Proof.
  unfold search_term. intros Hq Hhook.
  unfold list_query, read_req, Async.read, Async.ret. unfold Async.bind at 1 2.
  destruct (Js.get (query (w_req w)) "q"); try done; unfold Async.bind; by rewrite Hhook.
Qed.

(** [list] once the filter is there. *)
Lemma list_run (c : controller) (qh : query_handle) (w w1 : world)
    (calls : list query_call) (filter : obj) :
  list_query c w = (Fulfilled filter, w1) →
  list_ c qh (w, calls)
  = Async.catch
      (Async.bind
         (promise_all qh (items_query c filter (limit_of (w_req w)) (page_of (w_req w))))
         (fun '(items, count) =>
            lift (emit (EvJson (VObj [("items", items); ("count", count)])))))
      (fun err =>
         (lift (emit (EvStatus 400)) ;;;
          message <- Async.settle (member err "message") ;;
          lift (emit (EvSend (VObj [("message", message)]))))%async)
      (w1, calls).
Proof.
  intros Hq. unfold list_. unfold Async.bind at 1. unfold lift at 1. simpl.
  unfold Async.bind at 1. unfold lift at 1. simpl. by rewrite Hq.
Qed.

Lemma list_stops (c : controller) (qh : query_handle) (w w1 : world)
    (calls : list query_call) (e : value) :
  list_query c w = (Rejected e, w1) →
  list_ c qh (w, calls) = (Rejected e, (w1, calls)).
Proof.
  intros Hq. unfold list_. unfold Async.bind at 1. unfold lift at 1. simpl.
  unfold Async.bind at 1. unfold lift at 1. simpl. by rewrite Hq.
Qed.

(** X19. Two failures of [list] never become an answer.  When [q] is
    there and is not a string, [list] is rejected before the pre-list
    hook runs; when the pre-list hook is rejected, [list] is rejected with
    the hook's error.  In both cases nothing is asked of the storage
    engine and nothing is sent. *)
Theorem list_rejects_without_answer (c : controller) (qh : query_handle) (w : world)
    (calls : list query_call) :
  (search_term (w_req w) = None →
     ∃ err, list_ c qh (w, calls) = (Rejected err, (w, calls)))
  ∧ (∀ q e w1,
       search_term (w_req w) = Some q →
       preListHandler c (w_req w) w = (Rejected e, w1) →
       list_ c qh (w, calls) = (Rejected e, (w1, calls))).
Proof.
  split.
  - intros Hq. destruct (list_query_needs_string c w Hq) as [err Herr].
    exists err. by apply list_stops.
  - intros q e w1 Hq Hhook. apply list_stops. by apply (list_query_hook_rejects _ _ _ q).
Qed.

(** X20. When the filter is built and both the query and the count
    succeed, [list] asks the storage engine exactly twice, the query
    first, and answers once with [{items, count}]: the documents found
    and the count as [countDocuments()] gave it. *)
Theorem list_answers_items_and_count (c : controller) (qh : query_handle) (w w1 : world)
    (calls : list query_call) (filter : obj) (found count : value) :
  list_query c w = (Fulfilled filter, w1) →
  let items := items_query c filter (limit_of (w_req w)) (page_of (w_req w)) in
  find_result qh items = Fulfilled found →
  count_result qh = Fulfilled count →
  list_ c qh (w, calls)
  = (Fulfilled tt,
     (logged w1 [EvJson (VObj [("items", found); ("count", count)])],
      calls ++ [FindCall items; CountCall])).
Proof.
  intros Hq items Hfind Hcount. rewrite (list_run c qh w w1 calls filter Hq).
  fold items. unfold promise_all, issue. run_async. rewrite Hfind, Hcount.
  unfold lift. simpl. by rewrite <- app_assoc.
Qed.

(** X21. When the query or the count fails with an error whose message is
    [m], [list] still settles normally: both calls have been made and the
    answer is status 400 with [{message: m}]. *)
Theorem list_reports_storage_failure (c : controller) (qh : query_handle) (w w1 : world)
    (calls : list query_call) (filter : obj) (e m : value) :
  list_query c w = (Fulfilled filter, w1) →
  let items := items_query c filter (limit_of (w_req w)) (page_of (w_req w)) in
  (find_result qh items = Rejected e ∧ (∃ count, count_result qh = Fulfilled count))
  ∨ ((∃ found, find_result qh items = Fulfilled found) ∧ count_result qh = Rejected e) →
  member e "message" = Fulfilled m →
  list_ c qh (w, calls)
  = (Fulfilled tt,
     (logged w1 [EvStatus 400; EvSend (message_payload m)],
      calls ++ [FindCall items; CountCall])).
Proof.
  intros Hq items Hfail Hm. rewrite (list_run c qh w w1 calls filter Hq).
  fold items. unfold promise_all, issue. run_async.
  destruct Hfail as [[Hfind [count Hcount]] | [[found Hfind] Hcount]];
    rewrite Hfind, Hcount, Hm; unfold lift; simpl;
    rewrite <- !app_assoc; reflexivity.
Qed.

(** X22. Paging.  When [limit] and [page] are numbers [l] and [p] (as
    given, or by default 20 and 1) the query asks for [l] documents after
    skipping [(p - 1) * l], sorted by [-created], on the filter that was
    built; with neither parameter given that is 20 documents and no
    skip. *)
Theorem list_paging (c : controller) (qh : query_handle) (w w1 : world)
    (calls : list query_call) (filter : obj) :
  list_query c w = (Fulfilled filter, w1) →
  ∃ items outcome w2,
    list_ c qh (w, calls) = (outcome, (w2, calls ++ [FindCall items; CountCall]))
    ∧ fq_filter items = filter
    ∧ fq_sort items = "-created"
    ∧ (∀ l p,
         to_number (limit_of (w_req w)) = Some l →
         to_number (page_of (w_req w)) = Some p →
         (Z.abs (p - 1) ≤ 2 ^ 53)%Z →
         (Z.abs ((p - 1) * l) ≤ 2 ^ 53)%Z →
         fq_limit items = Some l ∧ fq_skip items = Some ((p - 1) * l)%Z)
    ∧ (Js.get (query (w_req w)) "limit" = VUndefined →
       Js.get (query (w_req w)) "page" = VUndefined →
       fq_limit items = Some 20%Z ∧ fq_skip items = Some 0%Z).
Proof.
  intros Hq. rewrite (list_run c qh w w1 calls filter Hq).
  set (items := items_query c filter (limit_of (w_req w)) (page_of (w_req w))).
  assert (Hrun : ∃ outcome w2,
    Async.catch
      (Async.bind (promise_all qh items)
         (fun '(items, count) =>
            lift (emit (EvJson (VObj [("items", items); ("count", count)])))))
      (fun err =>
         (lift (emit (EvStatus 400)) ;;;
          message <- Async.settle (member err "message") ;;
          lift (emit (EvSend (VObj [("message", message)]))))%async)
      (w1, calls)
    = (outcome, (w2, calls ++ [FindCall items; CountCall]))).
  { unfold promise_all, issue. run_async.
    destruct (find_result qh items) as [found|e1], (count_result qh) as [count|e2];
      try destruct (count_settles_first qh);
      try destruct (member e1 "message") as [m|e'];
      try destruct (member e2 "message") as [m'|e''];
      unfold lift; simpl; rewrite <- ?app_assoc; by eexists _, _. }
  destruct Hrun as (outcome & w2 & Hrun).
  exists items, outcome, w2. split_and!; [exact Hrun | done | done | |].
  - intros l p Hl Hp Hsub Hmul. unfold items, items_query. cbn [fq_limit fq_skip].
    rewrite Hl, Hp. split; [done|].
    change (to_number (VNum 1)) with (Some 1%Z).
    by rewrite js_sub_some, (exact_safe _ Hsub), js_mul_some, (exact_safe _ Hmul).
  - intros Hlimit Hpage. unfold items, items_query, limit_of, page_of.
    rewrite Hlimit, Hpage. done.
Qed.

End ListWhole.

Lemma list_rejects_without_answer_witness :
  let w := sample_world [] [("q", VArr [VStr "a"; VStr "b"])] [] in
  let w' := sample_world [] [("q", VStr "a")] [] in
  (∃ err, @list_ hex_engine numerals sample_controller sample_queries (w, [])
          = (Rejected err, (w, [])))
  ∧ @list_ hex_engine numerals refusing_controller sample_queries (w', [])
    = (Rejected (Error "forbidden"), (w', [])).
Proof.
  intros w w'.
  destruct (@list_rejects_without_answer hex_engine numerals sample_controller
              sample_queries w []) as [Hterm _].
  destruct (@list_rejects_without_answer hex_engine numerals refusing_controller
              sample_queries w' []) as [_ Hhook].
  split; [exact (Hterm eq_refl) | exact (Hhook "a" _ w' eq_refl eq_refl)].
Defined.

Lemma list_answers_items_and_count_witness :
  let w := sample_world [] [("limit", VStr "10"); ("page", VStr "2")] [] in
  @list_ hex_engine numerals sample_controller sample_queries (w, [])
  = (Fulfilled tt,
     (logged w [EvJson (VObj [("items", VArr [VObj [("title", VStr "t")]]);
                              ("count", VNum 41)])],
      [FindCall {| fq_filter := [("$or", VArr [search_condition "title" "";
                                               search_condition "text" ""])];
                   fq_limit := Some 10%Z;
                   fq_skip := Some 10%Z;
                   fq_sort := "-created";
                   fq_populate := [("user", Some "displayName")] |};
       CountCall])).
Proof.
  intros w.
  exact (@list_answers_items_and_count hex_engine numerals sample_controller
           sample_queries w w [] _ _ _ eq_refl eq_refl eq_refl).
Defined.

Lemma list_reports_storage_failure_witness :
  let w := sample_world [] [("status", VStr "active")] [] in
  ∃ items,
    @list_ hex_engine numerals sample_controller sample_queries (w, [])
    = (Fulfilled tt,
       (logged w [EvStatus 400; EvSend (VObj [("message", VStr "bad filter")])],
        [FindCall items; CountCall])).
Proof.
  intros w. eexists.
  refine (@list_reports_storage_failure hex_engine numerals sample_controller
            sample_queries w w [] _ (Error "bad filter") (VStr "bad filter")
            eq_refl _ eq_refl).
  left. split; [reflexivity | by exists (VNum 41)].
Defined.

Lemma list_paging_witness :
  let w := sample_world [] [("limit", VStr "10"); ("page", VStr "2")] [] in
  ∃ items outcome w2,
    @list_ hex_engine numerals sample_controller sample_queries (w, [])
    = (outcome, (w2, [FindCall items; CountCall]))
    ∧ fq_limit items = Some 10%Z ∧ fq_skip items = Some 10%Z.
Proof.
  intros w.
  destruct (@list_paging hex_engine numerals sample_controller sample_queries w w []
              _ eq_refl) as (items & outcome & w2 & Hrun & _ & _ & Hpage & _).
  exists items, outcome, w2. split; [exact Hrun|].
  apply (Hpage 10%Z 2%Z eq_refl eq_refl); vm_compute; discriminate.
Defined.

(** ** Disconnecting and loading the models *)

Section Lifecycle.
Import Connection.

(** X23. The promise [disconnect] returns is always fulfilled with
    [undefined], and the driver's settings are not touched: a successful
    disconnect writes one line to the console, a failed one writes the
    failure and the error. *)
Theorem disconnect_always_fulfils (mongoose : driver) (p : process) :
  (∀ r, disconnect_result mongoose = Fulfilled r →
     disconnect mongoose p
     = (Fulfilled VUndefined,
        {| settings := settings p;
           console := console p ++ [ConsoleInfo (Yellow "Disconnected from MongoDB.")] |}))
  ∧ (∀ err, disconnect_result mongoose = Rejected err →
       disconnect mongoose p
       = (Fulfilled VUndefined,
          {| settings := settings p;
             console := console p
                        ++ [ConsoleError (Red "Error when disconnected from MongoDB");
                            ConsoleLog err] |}))
  ∧ ∃ p', disconnect mongoose p = (Fulfilled VUndefined, p') ∧ settings p' = settings p.
Proof.
  unfold disconnect, console_write. run_async.
  destruct (disconnect_result mongoose) as [r|err]; simpl.
  - split_and!; [done | intros err [=] | by eexists].
  - rewrite <- app_assoc. simpl.
    split_and!; [intros r [=] | by intros err' [= <-] | by eexists].
Qed.

End Lifecycle.

Lemma disconnect_always_fulfils_witness :
  Connection.disconnect reachable_driver fresh_process
  = (Fulfilled VUndefined,
     {| Connection.settings := [];
        Connection.console :=
          [Connection.ConsoleInfo (Connection.Yellow "Disconnected from MongoDB.")] |}).
Proof.
  destruct (disconnect_always_fulfils reachable_driver fresh_process) as (Hok & _).
  exact (Hok VUndefined eq_refl).
Defined.

Section LoadModels.
Import Loader.

Lemma loadModels_cons (env : platform) (m : string) (models asked : list string) :
  loadModels env (m :: models) asked
  = match require_result env (resolve env m) with
    | Fulfilled _ => loadModels env models (asked ++ [resolve env m])
    | Rejected e => (Rejected e, asked ++ [resolve env m])
    end.
Proof.
  unfold loadModels. simpl. unfold require. run_async.
  by destruct (require_result env (resolve env m)).
Qed.

Lemma loadModels_all (env : platform) (models asked : list string) :
  (∀ m, m ∈ models → ∃ v, require_result env (resolve env m) = Fulfilled v) →
  loadModels env models asked = (Fulfilled tt, asked ++ map (resolve env) models).
Proof.
  revert asked. induction models as [|m models IH]; intros asked Hall.
  - unfold loadModels. simpl. by rewrite app_nil_r.
  - rewrite loadModels_cons.
    destruct (Hall m (list_elem_of_here _ _)) as [v ->].
    rewrite IH.
    + simpl. by rewrite <- app_assoc.
    + intros m' Hin. apply Hall. by apply list_elem_of_further.
Qed.

(** X24. [loadModels] requires the models in the order given, each under
    its resolved path.  When all of them load, every one has been
    required; when one throws, the ones before it have been required, the
    ones after it are never asked for, and the error is the caller's. *)
Theorem loadModels_stops_at_first_failure (env : platform) (asked : list string) :
  (∀ models,
     (∀ m, m ∈ models → ∃ v, require_result env (resolve env m) = Fulfilled v) →
     loadModels env models asked = (Fulfilled tt, asked ++ map (resolve env) models))
  ∧ (∀ before bad after e,
       (∀ m, m ∈ before → ∃ v, require_result env (resolve env m) = Fulfilled v) →
       require_result env (resolve env bad) = Rejected e →
       loadModels env (before ++ bad :: after) asked
       = (Rejected e, asked ++ map (resolve env) (before ++ [bad]))).
Proof.
  split; [intros models; apply loadModels_all|].
  intros before bad after e. revert asked.
  induction before as [|m before IH]; intros asked Hall Hbad.
  - simpl. by rewrite loadModels_cons, Hbad.
  - simpl. rewrite loadModels_cons.
    destruct (Hall m (list_elem_of_here _ _)) as [v ->].
    rewrite IH.
    + by rewrite <- app_assoc.
    + intros m' Hin. apply Hall. by apply list_elem_of_further.
    + exact Hbad.
Qed.

End LoadModels.

Lemma loadModels_stops_at_first_failure_witness :
  Loader.loadModels sample_platform ["user.js"; "broken.js"; "article.js"] []
  = (Rejected (Error "SyntaxError"), ["/app/user.js"; "/app/broken.js"])
  ∧ Loader.loadModels sample_platform ["user.js"; "article.js"] []
    = (Fulfilled tt, ["/app/user.js"; "/app/article.js"]).
Proof.
  destruct (loadModels_stops_at_first_failure sample_platform []) as [Hall Hstop].
  split.
  - apply (Hstop ["user.js"] "broken.js" ["article.js"] (Error "SyntaxError"));
      [|reflexivity].
    intros m Hin. apply list_elem_of_singleton in Hin as ->. by eexists.
  - apply (Hall ["user.js"; "article.js"]).
    intros m Hin. apply elem_of_cons in Hin as [-> | Hin]; [by eexists|].
    apply list_elem_of_singleton in Hin as ->. by eexists.
Defined.
